(** * GPU library and binary resolution (package gpu, [Paths]; package
    gpuutils, [GetGpuPath])

    A shallow embedding of the two resolution functions and of the helpers
    they call, followed by the properties of the resolution result.

    The functions talk to the host: they read and write the process
    environment, look executables up on [PATH], run [nvidia-container-cli]
    and [ldconfig], open the fallback list file and read ELF headers.  All of
    that is gathered in the class [Host]; the embedded code runs in a monad
    that threads the process environment and records every call made to the
    host, in order. *)

From Stdlib Require Import Ascii.
From stdpp Require Import gmap strings list.

(** ** The [strings] functions the code calls, on byte strings *)

(** [strings.HasPrefix(s, prefix)]. *)
Fixpoint HasPrefix (s pre : string) {struct pre} : bool :=
  match pre, s with
  | EmptyString, _ => true
  | String _ _, EmptyString => false
  | String c pre', String d s' => if Ascii.eqb c d then HasPrefix s' pre' else false
  end.

(** [strings.Contains(s, substr)]: [substr] occurs at some offset of [s]. *)
Fixpoint Contains (s substr : string) : bool :=
  HasPrefix s substr ||
  match s with
  | EmptyString => false
  | String _ s' => Contains s' substr
  end.

(** [strings.SplitAfter(s, sep)[0]] for a non-empty [sep]: [s] up to and
    including the first occurrence of [sep], all of [s] when there is none. *)
Fixpoint SplitAfter0 (s sep : string) : string :=
  if HasPrefix s sep then sep
  else match s with
       | EmptyString => EmptyString
       | String c s' => String c (SplitAfter0 s' sep)
       end.

(** [line[0] != '#'] on a non-empty line; [strings.HasPrefix(line, "#")]
    computes the negation on every line. *)
Definition firstByteIs (c : Ascii.ascii) (line : string) : bool :=
  match line with
  | EmptyString => false
  | String d _ => Ascii.eqb d c
  end.

(** ** The host *)

(** [elf.Machine] is a [uint16]. *)
Definition Machine := N.

(** What the code obtains from outside.  The process environment is the
    finite map of the variables that are set to their values.  The results
    of executable lookup and of running a command depend on the environment
    in force at the call (the lookup reads [PATH], a child process inherits
    the environment); the file system is the same during one call.  [None]
    stands for a non-nil [error].

    [scanLines] is the sequence of tokens a [bufio.Scanner] yields over a
    text, [FindAllSubmatch] the list of the two captured groups of every
    match of the [ldconfig -p] line pattern.  [rangeOrder n m] is the order in
    which the [n]-th [range] loop over the map [m] visits its entries: every
    entry once, in an order the language leaves open. *)
Class Host := {
  lookPath : gmap string string → string → option string;
  output : gmap string string → string → list string → option string;
  openFile : string → option string;
  elfMachine : string → option Machine;
  scanLines : string → list string;
  TrimSpace : string → string;
  Base : string → string;
  Join : string → string → string;
  FindAllSubmatch : string → list (string * string);
  rangeOrder : nat → gmap string string → list (string * string);
  rangeOrder_perm : ∀ n m, rangeOrder n m ≡ₚ map_to_list m
}.

(** ** Calls to the host, and the monad *)

Inductive event :=
| EvGetenv (key : string)
| EvSetenv (key value : string)
| EvLookPath (file : string)
| EvCommand (name : string) (args : list string)
| EvOpen (path : string)
| EvElfOpen (path : string)
| EvClose (path : string).

#[global] Instance event_eq_dec : EqDecision event.
Proof. solve_decision. Defined.

(** The mutable state of the process the code can touch: the environment,
    and how many [range] loops over a map have been started. *)
Record state := State { st_env : gmap string string; st_range : nat }.

(** A computation returns its value, the state it leaves and the calls it
    made, oldest first. *)
Definition M (A : Type) : Type := state → A * state * list event.

#[global] Instance M_ret : MRet M := λ A a s, (a, s, []).

#[global] Instance M_bind : MBind M := λ A B f m s,
  let '(a, s1, t1) := m s in
  let '(b, s2, t2) := f a s1 in
  (b, s2, t1 ++ t2).

Definition value {A} (r : A * state * list event) : A := r.1.1.
Definition final {A} (r : A * state * list event) : state := r.1.2.
Definition calls {A} (r : A * state * list event) : list event := r.2.

(** A loop [for _, x := range l] over a slice that updates [a]. *)
Fixpoint forEach {A B} (f : A → B → M A) (a : A) (l : list B) : M A :=
  match l with
  | [] => mret a
  | x :: l' => a' ← f a x; forEach f a' l'
  end.

(** [os.Getenv]: the empty string for a variable that is not set. *)
Definition Getenv (key : string) : M string :=
  λ s, (default "" (st_env s !! key), s, [EvGetenv key]).

(** [os.Setenv] of a name and a value the system accepts; the code drops
    the error it returns. *)
Definition Setenv (key value : string) : M unit :=
  λ s, (tt, State (<[key:=value]> (st_env s)) (st_range s), [EvSetenv key value]).

Section Calls.
Context `{Host}.

Definition LookPath (file : string) : M (option string) :=
  λ s, (lookPath (st_env s) file, s, [EvLookPath file]).

(** [exec.Command(name, args...)] run to completion, its standard output
    collected. *)
Definition Output (name : string) (args : list string) : M (option string) :=
  λ s, (output (st_env s) name args, s, [EvCommand name args]).

Definition Open (path : string) : M (option string) :=
  λ s, (openFile path, s, [EvOpen path]).

(** [elf.Open(path)] followed by the read of the [Machine] field. *)
Definition elfOpen (path : string) : M (option Machine) :=
  λ s, (elfMachine path, s, [EvElfOpen path]).

(** [Close] on an open file, ELF or plain. *)
Definition Close (path : string) : M unit :=
  λ s, (tt, s, [EvClose path]).

(** The entries of a map, in the order this [range] loop visits them. *)
Definition range (m : gmap string string) : M (list (string * string)) :=
  λ s, (rangeOrder (st_range s) m, State (st_env s) (S (st_range s)), []).
End Calls.

(** ** Errors *)

(** A non-nil [error]: the one a failed host call returned, or one built by
    [fmt.Errorf] from a message and a cause. *)
Inductive error :=
| HostError (call : event)
| Errorf (message : string) (cause : error).

(** What both functions return: [libraries], [binaries] and [err]; a nil
    slice is the empty list, a nil [error] is [None]. *)
Definition result : Type := list string * list string * option error.

(** ** The resolution loop

    [Paths] (lines 140-182) and [GetGpuPath] (lines 129-193) run the same
    loop over the candidate names; they differ in the names of the variables
    and in the value type of the two maps that track what was added, of
    which only the keys are ever read. *)

(** The variables the loop updates: the keys of [libs] and of [bins], and
    the two result slices. *)
Record found := Found {
  libs : gset string;
  bins : gset string;
  libraries : list string;
  binaries : list string
}.

Definition nothing : found := Found ∅ ∅ [] [].

Section Resolve.
Context `{Host}.

(** The body of the loop over [ldCache], for one entry. *)
Definition matchEntry (machine : Machine) (gpuFile : string)
    (a : found) (entry : string * string) : M found :=
  let '(libPath, libName) := entry in
  if negb (HasPrefix libName gpuFile) then mret a
  else if decide (libName ∈ libs a) then mret a
  else
    elib ← elfOpen libPath;
    match elib with
    | None => mret a
    | Some elibMachine =>
        let a' :=
          if decide (elibMachine = machine)
          then Found ({[libName]} ∪ libs a) (bins a)
                     (libraries a ++ [libPath]) (binaries a)
          else a in
        Close libPath;;
        mret a'
    end.

(** The body of the loop over the candidate names, for one name. *)
Definition resolveFile (machine : Machine) (ldCache : gmap string string)
    (a : found) (gpuFile : string) : M found :=
  if Contains gpuFile ".so" then
    entries ← range ldCache;
    forEach (matchEntry machine gpuFile) a entries
  else
    binary ← LookPath gpuFile;
    match binary with
    | None => mret a
    | Some binary =>
        if decide (binary ∈ bins a) then mret a
        else mret (Found (libs a) ({[binary]} ∪ bins a)
                         (libraries a) (binaries a ++ [binary]))
    end.

Definition resolveFrom (machine : Machine) (ldCache : gmap string string)
    (a : found) (gpuFiles : list string) : M found :=
  forEach (resolveFile machine ldCache) a gpuFiles.

Definition resolve (machine : Machine) (ldCache : gmap string string)
    (gpuFiles : list string) : M found :=
  resolveFrom machine ldCache nothing gpuFiles.

(** [ldCache], filled from the matches of the line pattern in the output of
    [ldconfig -p]: [ldCache[libPath] = libName] for each match in turn. *)
Definition ldCacheOf (out : string) : gmap string string :=
  foldl (λ ldCache groups,
           let libName := TrimSpace groups.1 in
           let libPath := TrimSpace groups.2 in
           <[libPath:=libName]> ldCache)
        ∅ (FindAllSubmatch out).
End Resolve.

Arguments matchEntry : simpl never.
Arguments resolveFile : simpl never.

Record GpuCfg := { Platform : string; File : string }.

(** ** Package gpu: [Paths] *)

Module gpu.
Section gpu.
Context `{Host}.

(** One line of the output of [nvidia-container-cli list]. *)
Definition cliLine (libs : list string) (text : string) : list string :=
  let line := TrimSpace text in
  if decide (line = "") then libs
  else if Contains line ".so" then
    let lib := Base line in
    let bareLib := SplitAfter0 lib ".so" in
    (libs ++ [lib]) ++ [bareLib]
  else libs ++ [line].

Definition gpuContainerCli : M (list string + error) :=
  nvidiaCLIPath ← LookPath "nvidia-container-cli";
  match nvidiaCLIPath with
  | None =>
      mret (inr (Errorf "could not find nvidia-container-cli"
                        (HostError (EvLookPath "nvidia-container-cli"))))
  | Some nvidiaCLIPath =>
      let args := ["list"; "--binaries"; "--libraries"] in
      out ← Output nvidiaCLIPath args;
      match out with
      | None =>
          mret (inr (Errorf "could not execute nvidia-container-cli list"
                            (HostError (EvCommand nvidiaCLIPath args))))
      | Some out => mret (inl (foldl cliLine [] (scanLines out)))
      end
  end.

(** One line of the list file. *)
Definition listLine (libs : list string) (text : string) : list string :=
  let line := TrimSpace text in
  if bool_decide (line ≠ "") && negb (firstByteIs "#"%char line)
  then libs ++ [line] else libs.

Definition gpuliblist (gpuDir filename : string) : M (list string + error) :=
  let gpuliblistPath := Join gpuDir filename in
  file ← Open gpuliblistPath;
  match file with
  | None =>
      mret (inr (Errorf ("could not open " +:+ gpuliblistPath)
                        (HostError (EvOpen gpuliblistPath))))
  | Some file =>
      let libs := foldl listLine [] (scanLines file) in
      Close gpuliblistPath;;
      mret (inl libs)
  end.

(** [Paths] from the call of [ldconfig] on (lines 103-184), for the
    candidate names [gpuFiles].  The line pattern is a constant that
    compiles, so the return on a pattern that does not is left out. *)
Definition lookup (gpuFiles : list string) : M result :=
  out ← Output "ldconfig" ["-p"];
  match out with
  | None =>
      mret ([], [], Some (Errorf "could not execute ldconfig"
                                 (HostError (EvCommand "ldconfig" ["-p"]))))
  | Some out =>
      self ← elfOpen "/proc/self/exe";
      match self with
      | None =>
          mret ([], [], Some (Errorf "could not open /proc/self/exe"
                                     (HostError (EvElfOpen "/proc/self/exe"))))
      | Some machine =>
          Close "/proc/self/exe";;
          let ldCache := ldCacheOf out in
          a ← resolve machine ldCache gpuFiles;
          mret (libraries a, binaries a, None)
      end
  end.

(** [Paths].  The deferred call runs when the body has returned, by
    whichever [return].  The call of [gpuliblist] in the source passes
    [gpuDir] alone; the file name is [gpu.File], the one the two messages
    next to the call name. *)
Definition Paths (gpuDir envPath : string) (gpu : GpuCfg) : M result :=
  deferred ←
    (if decide (envPath ≠ "") then
       oldPath ← Getenv "PATH";
       Setenv "PATH" envPath;;
       mret (Setenv "PATH" oldPath)
     else mret (mret tt));
  r ←
    (cli ← gpuContainerCli;
     match cli with
     | inl gpuFiles => lookup gpuFiles
     | inr _ =>
         list ← gpuliblist gpuDir (File gpu);
         match list with
         | inr err =>
             mret ([], [], Some (Errorf ("could not read " +:+ File gpu) err))
         | inl gpuFiles => lookup gpuFiles
         end
     end);
  deferred;;
  mret r.
End gpu.
End gpu.

(** ** Package gpuutils: [GetGpuPath] *)

Module gpuutils.
Section gpuutils.
Context `{Host}.

Definition cliLine (strArray : list string) (text : string) : list string :=
  let line := TrimSpace text in
  if decide (line ≠ "") then
    if Contains line ".so" then
      let fileName := Base line in
      let newentry0 := SplitAfter0 fileName ".so" in
      (strArray ++ [fileName]) ++ [newentry0]
    else strArray ++ [line]
  else strArray.

Definition gpuContainerCli : M (list string + error) :=
  command ← LookPath "nvidia-container-cli";
  match command with
  | None =>
      mret (inr (Errorf "no nvidia-container-cli present"
                        (HostError (EvLookPath "nvidia-container-cli"))))
  | Some command =>
      let args := ["list"; "--binaries"; "--ipcs"; "--libraries"] in
      out ← Output command args;
      match out with
      | None =>
          mret (inr (Errorf "Unable to execute nvidia-container-cli"
                            (HostError (EvCommand command args))))
      | Some out => mret (inl (foldl cliLine [] (scanLines out)))
      end
  end.

Definition listLine (strArray : list string) (text : string) : list string :=
  let line := TrimSpace text in
  if negb (HasPrefix line "#") && bool_decide (line ≠ "")
  then strArray ++ [line] else strArray.

Definition gpuLiblist (abspath filename : string) : M (list string + error) :=
  let path := abspath +:+ "/" +:+ filename in
  file ← Open path;
  match file with
  | None => mret (inr (Errorf "" (HostError (EvOpen path))))
  | Some file =>
      let strArray := foldl listLine [] (scanLines file) in
      Close path;;
      mret (inl strArray)
  end.

(** [GetGpuPath] from the call of [ldconfig] on (lines 117-195), for the
    candidate names [strArray].  Every bare [return] on an error leaves
    [libraries] and [binaries] nil; the return on a line pattern that does
    not compile is left out, the pattern being a constant that compiles. *)
Definition lookup (strArray : list string) : M result :=
  out ← Output "ldconfig" ["-p"];
  match out with
  | None => mret ([], [], Some (HostError (EvCommand "ldconfig" ["-p"])))
  | Some out =>
      self ← elfOpen "/proc/self/exe";
      match self with
      | None => mret ([], [], Some (HostError (EvElfOpen "/proc/self/exe")))
      | Some machine =>
          Close "/proc/self/exe";;
          let ldCache := ldCacheOf out in
          a ← resolve machine ldCache strArray;
          mret (libraries a, binaries a, None)
      end
  end.

Definition GetGpuPath (abspath envPath : string) (gpu : GpuCfg) : M result :=
  deferred ←
    (if decide (envPath ≠ "") then
       oldPath ← Getenv "PATH";
       Setenv "PATH" envPath;;
       mret (Setenv "PATH" oldPath)
     else mret (mret tt));
  r ←
    (cli ← gpuContainerCli;
     match cli with
     | inl strArray => lookup strArray
     | inr _ =>
         list ← gpuLiblist abspath (File gpu);
         match list with
         | inr err => mret ([], [], Some err)
         | inl strArray => lookup strArray
         end
     end);
  deferred;;
  mret r.
End gpuutils.
End gpuutils.

(** ** Package rocmutils: [GetRocmPath] (gpuutils.go, lines 198-388)

    The loop over the output of [rocm-container-cli] is the one of
    [gpuutils.gpuContainerCli], the loop over the list file the one of
    [gpuutils.gpuLiblist], and [GetRocmPath] from the call of [ldconfig] on
    (lines 309-387) is [GetGpuPath] from that call on, with [rocmFileName]
    for [gpuFileName]; the three are used as they are. *)

Module rocmutils.
Section rocmutils.
Context `{Host}.

Definition rocmContainerCli : M (list string + error) :=
  command ← LookPath "rocm-container-cli";
  match command with
  | None =>
      mret (inr (Errorf "no rocm-container-cli present"
                        (HostError (EvLookPath "rocm-container-cli"))))
  | Some command =>
      let args := ["list"; "--binaries"; "--ipcs"; "--libraries"] in
      out ← Output command args;
      match out with
      | None =>
          mret (inr (Errorf "Unable to execute rocm-container-cli"
                            (HostError (EvCommand command args))))
      | Some out => mret (inl (foldl gpuutils.cliLine [] (scanLines out)))
      end
  end.

Definition rocmLiblist (abspath : string) : M (list string + error) :=
  let path := abspath +:+ "/rocmliblist.conf" in
  file ← Open path;
  match file with
  | None => mret (inr (Errorf "" (HostError (EvOpen path))))
  | Some file =>
      let strArray := foldl gpuutils.listLine [] (scanLines file) in
      Close path;;
      mret (inl strArray)
  end.

Definition GetRocmPath (abspath envPath : string) : M result :=
  deferred ←
    (if decide (envPath ≠ "") then
       oldPath ← Getenv "PATH";
       Setenv "PATH" envPath;;
       mret (Setenv "PATH" oldPath)
     else mret (mret tt));
  r ←
    (cli ← rocmContainerCli;
     match cli with
     | inl strArray => gpuutils.lookup strArray
     | inr _ =>
         list ← rocmLiblist abspath;
         match list with
         | inr err => mret ([], [], Some err)
         | inl strArray => gpuutils.lookup strArray
         end
     end);
  deferred;;
  mret r.
End rocmutils.
End rocmutils.

(** ** Package rocmutils, the later text (gpuutils.go, lines 390-547)

    [rocmContainerCli] is a stub here: it returns the nil slice it declares
    and a nil error.  [rocmLiblist] and [GetRocmPath] are as above. *)

Module rocmstub.
Section rocmstub.
Context `{Host}.

Definition rocmContainerCli : M (list string + error) := mret (inl []).

Definition rocmLiblist (abspath : string) : M (list string + error) :=
  rocmutils.rocmLiblist abspath.

Definition GetRocmPath (abspath envPath : string) : M result :=
  deferred ←
    (if decide (envPath ≠ "") then
       oldPath ← Getenv "PATH";
       Setenv "PATH" envPath;;
       mret (Setenv "PATH" oldPath)
     else mret (mret tt));
  r ←
    (cli ← rocmContainerCli;
     match cli with
     | inl strArray => gpuutils.lookup strArray
     | inr _ =>
         list ← rocmLiblist abspath;
         match list with
         | inr err => mret ([], [], Some err)
         | inl strArray => gpuutils.lookup strArray
         end
     end);
  deferred;;
  mret r.
End rocmstub.
End rocmstub.

(** ** Reading a run *)

(** The state in which the body of [Paths] or [GetGpuPath] runs: the one of
    the call, with [PATH] set to a non-empty [envPath]. *)
Definition entered (envPath : string) (s : state) : state :=
  if decide (envPath ≠ "")
  then State (<["PATH":=envPath]> (st_env s)) (st_range s)
  else s.

(** The calls made before the body runs and after it has returned. *)
Definition prologue (envPath : string) : list event :=
  if decide (envPath ≠ "")
  then [EvGetenv "PATH"; EvSetenv "PATH" envPath] else [].

Definition epilogue (envPath : string) (s : state) : list event :=
  if decide (envPath ≠ "")
  then [EvSetenv "PATH" (default "" (st_env s !! "PATH"))] else [].

(** A read or a write of the process environment. *)
Definition isEnvCall (e : event) : bool :=
  match e with
  | EvGetenv _ | EvSetenv _ _ => true
  | _ => false
  end.

(** What it is for a function [call], given its [envPath] argument, to
    override [PATH] for the time of the call and no longer: it saves [PATH]
    and sets it to [envPath] before anything else, then does what the call
    with no override does in the environment so changed, which reads and
    writes no variable and so leaves [PATH] at [envPath] to its end, and
    last sets [PATH] to the saved value. *)
Definition scopedOverride (call : string → M result) (envPath : string)
    (s : state) : Prop :=
  let oldPath := default "" (st_env s !! "PATH") in
  let overridden := State (<["PATH":=envPath]> (st_env s)) (st_range s) in
  let run := call envPath s in
  let inner := call "" overridden in
  calls run =
    [EvGetenv "PATH"; EvSetenv "PATH" envPath] ++ calls inner ++
    [EvSetenv "PATH" oldPath] ∧
  Forall (λ e, isEnvCall e = false) (calls inner) ∧
  st_env (final inner) = <["PATH":=envPath]> (st_env s) ∧
  value run = value inner ∧
  st_env (final run) = <["PATH":=oldPath]> (st_env s) ∧
  default "" (st_env (final run) !! "PATH") = oldPath ∧
  (is_Some (st_env s !! "PATH") → st_env (final run) = st_env s).

Definition isOpen (e : event) : bool :=
  match e with EvOpen _ => true | _ => false end.

Definition isLookPath (e : event) : bool :=
  match e with EvLookPath _ => true | _ => false end.

Definition isElfOpen (e : event) : bool :=
  match e with EvElfOpen _ => true | _ => false end.

(** The calls the resolution loop can make. *)
Definition isLoopCall (e : event) : bool :=
  match e with
  | EvLookPath _ | EvElfOpen _ | EvClose _ => true
  | _ => false
  end.

(** The lines of a list file that become candidate names. *)
Definition kept (line : string) : bool :=
  bool_decide (line ≠ "") && negb (firstByteIs "#"%char line).

(** A list with every element kept at its first occurrence. *)
Fixpoint dedup (l : list string) : list string :=
  match l with
  | [] => []
  | x :: l' => x :: filter (λ y, y ≠ x) (dedup l')
  end.

(** The test of the resolution loop. *)
Definition isLibrary (gpuFile : string) : bool := Contains gpuFile ".so".

(** The files a run holds open after the calls [t], when it held [held]
    before them: an open that succeeds adds its path, a close takes it
    away. *)
Fixpoint release (path : string) (held : list string) : list string :=
  match held with
  | [] => []
  | p :: held' => if decide (p = path) then held' else p :: release path held'
  end.

Fixpoint heldAfter `{Host} (held : list string) (t : list event) : list string :=
  match t with
  | [] => held
  | EvOpen path :: t' =>
      heldAfter (if openFile path is Some _ then path :: held else held) t'
  | EvElfOpen path :: t' =>
      heldAfter (if elfMachine path is Some _ then path :: held else held) t'
  | EvClose path :: t' => heldAfter (release path held) t'
  | _ :: t' => heldAfter held t'
  end.

(** The candidate names one line of the helper tool's output gives. *)
Definition lineCandidates `{Host} (text : string) : list string :=
  let line := TrimSpace text in
  if decide (line = "") then []
  else if Contains line ".so"
       then [Base line; SplitAfter0 (Base line) ".so"]
       else [line].

(** ** A host to run the code on

    A small machine: three executables, one list file, four libraries in the
    linker cache of which one cannot be opened and one is a 32-bit build.
    Which of the executables a call finds depends on [PATH] alone, so the
    [envPath] argument selects the scenario. *)

Definition newline : Ascii.ascii := Ascii.ascii_of_nat 10.

Fixpoint splitOn (sep : Ascii.ascii) (s : string) : list string :=
  match s with
  | EmptyString => [EmptyString]
  | String c s' =>
      if Ascii.eqb c sep then EmptyString :: splitOn sep s'
      else match splitOn sep s' with
           | [] => [String c EmptyString]
           | w :: ws => String c w :: ws
           end
  end.

Definition isBlank (c : Ascii.ascii) : bool :=
  bool_decide (c ∈ [" "%char; newline; Ascii.ascii_of_nat 9; Ascii.ascii_of_nat 13]).

Fixpoint trimLeft (s : string) : string :=
  match s with
  | String c s' => if isBlank c then trimLeft s' else s
  | EmptyString => EmptyString
  end.

Fixpoint trimRight (s : string) : string :=
  match s with
  | String c s' =>
      let t := trimRight s' in
      if isBlank c && bool_decide (t = "") then "" else String c t
  | EmptyString => EmptyString
  end.

Definition labLines (text : string) : list string :=
  let pieces := splitOn newline text in
  if bool_decide (last pieces = Some "") then removelast pieces else pieces.

Definition labExecutables : list string :=
  ["/opt/nvidia/bin/nvidia-container-cli"; "/usr/bin/nvidia-smi"; "/sbin/ldconfig"].

Definition labLookPath (env : gmap string string) (file : string) : option string :=
  if Contains file "/" then
    if bool_decide (file ∈ labExecutables) then Some file else None
  else
    head (filter (λ path, path ∈ labExecutables)
                 ((λ dir, dir +:+ "/" +:+ file) <$>
                    splitOn ":"%char (default "" (env !! "PATH")))).

Definition labCliText : string :=
  String.concat (String newline "")
    ["/usr/bin/nvidia-smi"; "/usr/lib64/libcuda.so.1"; ""].

Definition labListText : string :=
  String.concat (String newline "")
    ["# libraries and binaries"; ""; "nvidia-smi"; " libcuda.so"; "libfoo.so"; "nvidia-debugdump"; ""].

Definition labLdconfigText : string :=
  String.concat (String newline "")
    ["4 libs found in cache";
     "libcuda.so.1 (libc6) => /usr/lib32/libcuda.so.1";
     "libcuda.so.1 (libc6,x86-64) => /usr/lib64/libcuda.so.1";
     "libfoo.so.1 (libc6,x86-64) => /usr/lib/libfoo.so.1";
     "libnvidia-ml.so.1 (libc6,x86-64) => /usr/lib64/libnvidia-ml.so.1"; ""].

Definition labMatches : list (string * string) :=
  [("libcuda.so.1 ", "/usr/lib32/libcuda.so.1");
   ("libcuda.so.1 ", "/usr/lib64/libcuda.so.1");
   ("libfoo.so.1 ", "/usr/lib/libfoo.so.1");
   ("libnvidia-ml.so.1 ", "/usr/lib64/libnvidia-ml.so.1")].

Definition labOutput (env : gmap string string) (name : string)
    (args : list string) : option string :=
  if bool_decide (name = "ldconfig") then
    _ ← labLookPath env "ldconfig"; Some labLdconfigText
  else if bool_decide (name = "/opt/nvidia/bin/nvidia-container-cli") then
    Some labCliText
  else None.

Definition labElf : gmap string Machine :=
  {[ "/proc/self/exe" := 62%N;
     "/usr/lib32/libcuda.so.1" := 3%N;
     "/usr/lib64/libcuda.so.1" := 62%N;
     "/usr/lib/libfoo.so.1" := 62%N ]}.

Definition labRange (n : nat) (m : gmap string string) : list (string * string) :=
  if Nat.even n then map_to_list m else reverse (map_to_list m).

Definition labRange_perm (n : nat) (m : gmap string string) :
    labRange n m ≡ₚ map_to_list m :=
  match Nat.even n as b
    return (if b then map_to_list m else reverse (map_to_list m)) ≡ₚ map_to_list m
  with
  | true => Permutation_refl _
  | false => reverse_Permutation _
  end.

Definition lab : Host := {|
  lookPath := labLookPath;
  output := labOutput;
  openFile path :=
    if bool_decide (path = "/etc/singularity/nvliblist.conf")
    then Some labListText else None;
  elfMachine path := labElf !! path;
  scanLines := labLines;
  TrimSpace s := trimRight (trimLeft s);
  Base path := default "" (last (splitOn "/"%char path));
  Join dir name := dir +:+ "/" +:+ name;
  FindAllSubmatch out :=
    if bool_decide (out = labLdconfigText) then labMatches else [];
  rangeOrder := labRange;
  rangeOrder_perm := labRange_perm
|}.

Definition labCfg : GpuCfg := {| Platform := "nv"; File := "nvliblist.conf" |}.

Definition labState (PATH : string) : state :=
  State {[ "PATH" := PATH ]} 0.

(** Two builds of one library, under one name, as two entries of a cache. *)
Definition labCudaCache : gmap string string :=
  {[ "/usr/lib32/libcuda.so.1" := "libcuda.so.1";
     "/usr/lib64/libcuda.so.1" := "libcuda.so.1" ]}.

(** ** What the loop variables say of each other

    [ldCache] is the linker cache, [machine] the reference architecture and
    [gpuFiles] the candidate names of the run. *)
Record consistent `{Host} (machine : Machine) (ldCache : gmap string string)
    (gpuFiles : list string) (a : found) : Prop := {
  library_origin :
    ∀ libPath, libPath ∈ libraries a →
      ∃ libName gpuFile,
        ldCache !! libPath = Some libName ∧ libName ∈ libs a ∧
        gpuFile ∈ gpuFiles ∧ Contains gpuFile ".so" = true ∧
        HasPrefix libName gpuFile = true ∧
        elfMachine libPath = Some machine;
  library_names_once : NoDup ((λ libPath, ldCache !! libPath) <$> libraries a);
  libs_added :
    ∀ libName, libName ∈ libs a →
      ∃ libPath, libPath ∈ libraries a ∧ ldCache !! libPath = Some libName;
  binaries_once : NoDup (binaries a);
  bins_added : ∀ binary, binary ∈ bins a ↔ binary ∈ binaries a
}.

(** The result slices and the two sets only grow. *)
Definition extends (a a' : found) : Prop :=
  libraries a `prefix_of` libraries a' ∧ binaries a `prefix_of` binaries a' ∧
  libs a ⊆ libs a' ∧ bins a ⊆ bins a'.

#[global] Instance extends_preorder : PreOrder extends.
Proof.
  split.
  - by intros a.
  - intros a b c (? & ? & ? & ?) (? & ? & ? & ?). repeat split; by etrans.
Qed.

(** The shape of every result: an error with nothing resolved, or what the
    loop found for some candidate names and some cache, against the
    architecture of the running executable. *)
Definition outcome `{Host} (r : result) : Prop :=
  (∃ err, r = ([], [], Some err)) ∨
  (∃ machine ldCache gpuFiles s,
     elfMachine "/proc/self/exe" = Some machine ∧
     r = (libraries (value (resolve machine ldCache gpuFiles s)),
          binaries (value (resolve machine ldCache gpuFiles s)), None)).

(** Every entry of the cache whose name starts with [gpuFile] and whose file
    has the reference architecture has its name in [libs]. *)
Definition covered `{Host} (machine : Machine) (ldCache : gmap string string)
    (gpuFile : string) (a : found) : Prop :=
  ∀ libPath libName,
    ldCache !! libPath = Some libName → HasPrefix libName gpuFile = true →
    elfMachine libPath = Some machine → libName ∈ libs a.

(** ** Files held open *)

Definition isHandleCall (e : event) : bool :=
  match e with
  | EvOpen _ | EvElfOpen _ | EvClose _ => true
  | _ => false
  end.

(** Calls after which the files held open are the ones held before, and
    during which at most one more is held. *)
Definition tidy `{Host} (t : list event) : Prop :=
  ∀ held,
    heldAfter held t = held ∧
    ∀ t1 t2, t = t1 ++ t2 → length (heldAfter held t1) ≤ S (length held).

(** * Properties *)

(** ** Strings *)

Lemma HasPrefix_spec (s pre : string) :
  HasPrefix s pre = true ↔ ∃ rest, s = pre +:+ rest.
Proof.
  revert s. induction pre as [|c pre IH]; intros s; simpl.
  - split; [by exists s | done].
  - destruct s as [|d s].
    + split; [done | intros [rest Hrest]; discriminate].
    + destruct (Ascii.eqb_spec c d) as [->|Hne].
      * rewrite IH. split; intros [rest Hrest]; exists rest.
        -- by rewrite Hrest.
        -- by injection Hrest.
      * split; [done | intros [rest Hrest]; injection Hrest; congruence].
Qed.

Lemma HasPrefix_refl (s : string) : HasPrefix s s = true.
Proof. induction s as [|c s IH]; simpl; [done | by rewrite Ascii.eqb_refl]. Qed.

Lemma Contains_spec (s substr : string) :
  Contains s substr = true ↔ ∃ before after, s = before +:+ substr +:+ after.
Proof.
  induction s as [|c s IH]; simpl.
  - rewrite orb_false_r, HasPrefix_spec. split.
    + intros [rest ->]. by exists "", rest.
    + intros [before [after Heq]]. destruct before; [by exists after | discriminate].
  - rewrite orb_true_iff, HasPrefix_spec, IH. split.
    + intros [[rest ->] | [before [after ->]]].
      * by exists "", rest.
      * by exists (String c before), after.
    + intros [before [after Heq]]. destruct before as [|d before].
      * left. by exists after.
      * right. injection Heq as -> ->. by exists before, after.
Qed.

(** ** The monad *)

Lemma value_bind {A B} (m : M A) (f : A → M B) (s : state) :
  value ((m ≫= f) s) = value (f (value (m s)) (final (m s))).
Proof.
  unfold mbind, M_bind, value, final.
  destruct (m s) as [[a s1] t1]; simpl. by destruct (f a s1) as [[b s2] t2].
Qed.

Lemma final_bind {A B} (m : M A) (f : A → M B) (s : state) :
  final ((m ≫= f) s) = final (f (value (m s)) (final (m s))).
Proof.
  unfold mbind, M_bind, value, final.
  destruct (m s) as [[a s1] t1]; simpl. by destruct (f a s1) as [[b s2] t2].
Qed.

Lemma calls_bind {A B} (m : M A) (f : A → M B) (s : state) :
  calls ((m ≫= f) s) = calls (m s) ++ calls (f (value (m s)) (final (m s))).
Proof.
  unfold mbind, M_bind, value, final, calls.
  destruct (m s) as [[a s1] t1]; simpl. by destruct (f a s1) as [[b s2] t2].
Qed.

Lemma value_ret {A} (a : A) (s : state) : value (mret (M := M) a s) = a.
Proof. done. Qed.

Lemma final_ret {A} (a : A) (s : state) : final (mret (M := M) a s) = s.
Proof. done. Qed.

Lemma calls_ret {A} (a : A) (s : state) : calls (mret (M := M) a s) = [].
Proof. done. Qed.

Lemma value_mk {A} (a : A) (s : state) (t : list event) : value (a, s, t) = a.
Proof. done. Qed.

Lemma final_mk {A} (a : A) (s : state) (t : list event) : final (a, s, t) = s.
Proof. done. Qed.

Lemma calls_mk {A} (a : A) (s : state) (t : list event) : calls (a, s, t) = t.
Proof. done. Qed.

Ltac project := rewrite ?value_mk, ?final_mk, ?calls_mk.

Create Rewrite HintDb run.

#[local] Hint Rewrite @value_bind @final_bind @calls_bind
  @value_ret @final_ret @calls_ret : run.

Ltac run := autorewrite with run; simpl.

(** ** Loops *)

Section Loops.
Context {A B : Type} (f : A → B → M A).

Lemma forEach_app (l1 l2 : list B) (a : A) (s : state) :
  value (forEach f a (l1 ++ l2) s) =
    value (forEach f (value (forEach f a l1 s)) l2 (final (forEach f a l1 s))).
Proof.
  revert a s. induction l1 as [|x l1 IH]; intros a s; simpl; [done|].
  run. by rewrite IH.
Qed.

(** A property of the variables that every turn keeps holds after the loop. *)
Lemma forEach_keeps (I : A → Prop) (l : list B) :
  (∀ a x s, x ∈ l → I a → I (value (f a x s))) →
  ∀ a s, I a → I (value (forEach f a l s)).
Proof.
  induction l as [|x l IH]; intros Hstep a s Ha; simpl; [done|].
  run. apply IH.
  - intros a' y s' Hy. apply Hstep. by right.
  - apply Hstep; [by left | done].
Qed.

(** A preorder that relates the variables before and after every turn
    relates them before and after the loop. *)
Lemma forEach_grows (R : relation A) `{!PreOrder R} (l : list B) :
  (∀ a x s, R a (value (f a x s))) →
  ∀ a s, R a (value (forEach f a l s)).
Proof.
  intros Hstep. induction l as [|x l IH]; intros a s; simpl; [done|].
  run. etrans; [apply Hstep | apply IH].
Qed.

(** A loop makes the calls its turns make. *)
Lemma forEach_calls (Q : event → Prop) (l : list B) :
  (∀ a x s, Forall Q (calls (f a x s))) →
  ∀ a s, Forall Q (calls (forEach f a l s)).
Proof.
  intros Hstep. induction l as [|x l IH]; intros a s; simpl; [done|].
  run. apply Forall_app. split; [apply Hstep | apply IH].
Qed.

Lemma forEach_env (l : list B) :
  (∀ a x s, st_env (final (f a x s)) = st_env s) →
  ∀ a s, st_env (final (forEach f a l s)) = st_env s.
Proof.
  intros Hstep. induction l as [|x l IH]; intros a s; simpl; [done|].
  run. by rewrite IH.
Qed.
End Loops.

(** ** One cache entry, one candidate name *)

Section Resolution.
Context `{Host}.
Implicit Types (machine : Machine) (ldCache : gmap string string).
Implicit Types (a : found) (s : state) (gpuFile libPath libName : string).

(** What one turn of the loop over the cache does to the variables: the
    entry is added when its name starts with the candidate, is not in [libs]
    and its file opens with the reference architecture; nothing changes
    otherwise. *)
Lemma matchEntry_value machine gpuFile a libPath libName s :
  value (matchEntry machine gpuFile a (libPath, libName) s) =
    if HasPrefix libName gpuFile && bool_decide (libName ∉ libs a)
       && bool_decide (elfMachine libPath = Some machine)
    then Found ({[libName]} ∪ libs a) (bins a)
               (libraries a ++ [libPath]) (binaries a)
    else a.
Proof.
  unfold matchEntry. destruct (HasPrefix libName gpuFile); simpl; [|done].
  case_decide as Hseen; case_bool_decide as Hnew; simpl; try done.
  run. unfold elfOpen, value; simpl.
  destruct (elfMachine libPath) as [m|]; simpl.
  - case_decide as Hm; case_bool_decide as Hm'; simpl; congruence.
  - try case_bool_decide; done.
Qed.

Lemma matchEntry_calls machine gpuFile a libPath libName s :
  Forall (λ e, e = EvElfOpen libPath ∨ e = EvClose libPath)
         (calls (matchEntry machine gpuFile a (libPath, libName) s)).
Proof.
  unfold matchEntry. destruct (HasPrefix libName gpuFile); simpl; [|by constructor].
  case_decide; [by constructor|]. run. unfold elfOpen, value; simpl.
  destruct (elfMachine libPath); simpl;
    repeat first [apply Forall_nil_2 | apply Forall_cons_2; [by auto|]].
Qed.

Lemma matchEntry_final machine gpuFile a entry s :
  final (matchEntry machine gpuFile a entry s) = s.
Proof.
  destruct entry as [libPath libName]. unfold matchEntry.
  destruct (HasPrefix libName gpuFile); simpl; [|done].
  case_decide; [done|]. run. unfold elfOpen, value; simpl.
  by destruct (elfMachine libPath).
Qed.

Lemma matchEntry_consistent machine ldCache gpuFiles gpuFile a libPath libName s :
  gpuFile ∈ gpuFiles → Contains gpuFile ".so" = true →
  ldCache !! libPath = Some libName →
  consistent machine ldCache gpuFiles a →
  consistent machine ldCache gpuFiles
    (value (matchEntry machine gpuFile a (libPath, libName) s)).
Proof.
  intros Hin Hso Hcache Ha. rewrite matchEntry_value.
  destruct (HasPrefix libName gpuFile) eqn:Hpre; simpl; [|done].
  case_bool_decide as Hnew; simpl; [|done].
  case_bool_decide as Helf; simpl; [|done].
  destruct Ha as [Horigin Hnames Hlibs Hbins Hbin]. split; simpl; [| | |done|done].
  - intros libPath' [Hold| ->%list_elem_of_singleton]%elem_of_app.
    + destruct (Horigin _ Hold) as (n & g & ? & ? & ? & ? & ? & ?).
      exists n, g. repeat split; try done. by apply elem_of_union_r.
    + exists libName, gpuFile. repeat split; try done.
      by apply elem_of_union_l, elem_of_singleton.
  - rewrite fmap_app. apply NoDup_app. repeat split; [done | | apply NoDup_singleton].
    intros name [libPath' [-> Hold]]%list_elem_of_fmap Hname.
    apply list_elem_of_singleton in Hname. simpl in Hname.
    destruct (Horigin _ Hold) as (n & g & Hn & Hseen & _). congruence.
  - intros libName' [->%elem_of_singleton | Hold]%elem_of_union.
    + exists libPath. split; [|done]. apply elem_of_app. right. left.
    + destruct (Hlibs _ Hold) as (p & ? & ?). exists p. split; [|done].
      apply elem_of_app. by left.
Qed.

Lemma range_entries ldCache s libPath libName :
  (libPath, libName) ∈ value (range ldCache s) → ldCache !! libPath = Some libName.
Proof.
  unfold range, value; simpl. rewrite (rangeOrder_perm (st_range s) ldCache).
  apply elem_of_map_to_list.
Qed.

Lemma resolveFile_consistent machine ldCache gpuFiles a gpuFile s :
  gpuFile ∈ gpuFiles →
  consistent machine ldCache gpuFiles a →
  consistent machine ldCache gpuFiles
    (value (resolveFile machine ldCache a gpuFile s)).
Proof.
  intros Hin Ha. unfold resolveFile. destruct (Contains gpuFile ".so") eqn:Hso.
  - run. apply forEach_keeps; [|done].
    intros a' [libPath libName] s' Hentry Ha'.
    apply matchEntry_consistent; try done. by eapply range_entries.
  - run. unfold LookPath, value; simpl.
    destruct (lookPath (st_env s) gpuFile) as [binary|]; simpl; [|done].
    case_decide as Hseen; simpl; [done|].
    destruct Ha as [Horigin Hnames Hlibs Hbins Hbin]. split; simpl; try done.
    + apply NoDup_app. repeat split; [done | | apply NoDup_singleton].
      intros b Hb ->%list_elem_of_singleton. by apply Hseen, Hbin.
    + intros b. rewrite elem_of_union, elem_of_singleton, elem_of_app,
        list_elem_of_singleton, Hbin. tauto.
Qed.

Lemma nothing_consistent machine ldCache gpuFiles :
  consistent machine ldCache gpuFiles nothing.
Proof.
  split; simpl.
  - intros libPath Hin. by apply elem_of_nil in Hin.
  - constructor.
  - intros libName Hin. by apply not_elem_of_empty in Hin.
  - constructor.
  - intros binary. split; [intros Hin; by apply not_elem_of_empty in Hin|].
    intros Hin. by apply elem_of_nil in Hin.
Qed.

Lemma resolve_consistent machine ldCache gpuFiles s :
  consistent machine ldCache gpuFiles (value (resolve machine ldCache gpuFiles s)).
Proof.
  unfold resolve, resolveFrom. apply forEach_keeps.
  - intros a gpuFile s' Hin. by apply resolveFile_consistent.
  - apply nothing_consistent.
Qed.

(** The binary branch, in one equation. *)
Lemma resolveFile_binary machine ldCache a gpuFile s :
  Contains gpuFile ".so" = false →
  resolveFile machine ldCache a gpuFile s =
    (match lookPath (st_env s) gpuFile with
     | Some binary =>
         if decide (binary ∈ bins a) then a
         else Found (libs a) ({[binary]} ∪ bins a)
                    (libraries a) (binaries a ++ [binary])
     | None => a
     end, s, [EvLookPath gpuFile]).
Proof.
  intros Hso. unfold resolveFile. rewrite Hso.
  unfold mbind, M_bind, LookPath; simpl.
  destruct (lookPath (st_env s) gpuFile) as [binary|]; simpl; [|done].
  by case_decide.
Qed.

(** The library branch: the loop over the entries of the cache. *)
Lemma resolveFile_library machine ldCache a gpuFile s :
  Contains gpuFile ".so" = true →
  let scan := forEach (matchEntry machine gpuFile) a
                (rangeOrder (st_range s) ldCache)
                (State (st_env s) (S (st_range s))) in
  value (resolveFile machine ldCache a gpuFile s) = value scan ∧
  final (resolveFile machine ldCache a gpuFile s) = final scan ∧
  calls (resolveFile machine ldCache a gpuFile s) = calls scan.
Proof.
  intros Hso. unfold resolveFile. rewrite Hso. by run.
Qed.

Lemma scan_env machine gpuFile a entries s :
  st_env (final (forEach (matchEntry machine gpuFile) a entries s)) = st_env s.
Proof.
  apply forEach_env. intros a' entry s'. by rewrite matchEntry_final.
Qed.

Lemma scan_calls machine gpuFile a entries s :
  Forall (λ e, isElfOpen e = true ∨ ∃ path, e = EvClose path)
         (calls (forEach (matchEntry machine gpuFile) a entries s)).
Proof.
  apply forEach_calls. intros a' [libPath libName] s'.
  eapply Forall_impl; [apply matchEntry_calls|].
  intros e [-> | ->]; [by left | right; by eexists].
Qed.

Lemma resolveFile_env machine ldCache a gpuFile s :
  st_env (final (resolveFile machine ldCache a gpuFile s)) = st_env s.
Proof.
  destruct (Contains gpuFile ".so") eqn:Hso.
  - destruct (resolveFile_library machine ldCache a gpuFile s Hso) as (_ & -> & _).
    by rewrite scan_env.
  - by rewrite resolveFile_binary.
Qed.

Lemma resolveFile_calls machine ldCache a gpuFile s :
  Forall (λ e, isLoopCall e = true)
         (calls (resolveFile machine ldCache a gpuFile s)).
Proof.
  destruct (Contains gpuFile ".so") eqn:Hso.
  - destruct (resolveFile_library machine ldCache a gpuFile s Hso) as (_ & _ & ->).
    eapply Forall_impl; [apply scan_calls|].
    intros e [He | [path ->]]; [by destruct e | done].
  - rewrite resolveFile_binary by done. by repeat constructor.
Qed.

Lemma resolveFrom_env machine ldCache a gpuFiles s :
  st_env (final (resolveFrom machine ldCache a gpuFiles s)) = st_env s.
Proof. apply forEach_env. intros. apply resolveFile_env. Qed.

Lemma resolveFrom_calls machine ldCache a gpuFiles s :
  Forall (λ e, isLoopCall e = true)
         (calls (resolveFrom machine ldCache a gpuFiles s)).
Proof. apply forEach_calls. intros. apply resolveFile_calls. Qed.

Lemma matchEntry_extends machine gpuFile a entry s :
  extends a (value (matchEntry machine gpuFile a entry s)).
Proof.
  destruct entry as [libPath libName]. rewrite matchEntry_value.
  destruct (_ && _); [|done]. repeat split; simpl; try done.
  - by apply prefix_app_r.
  - apply union_subseteq_r.
Qed.

Lemma scan_extends machine gpuFile a entries s :
  extends a (value (forEach (matchEntry machine gpuFile) a entries s)).
Proof. apply (forEach_grows _ extends). intros. apply matchEntry_extends. Qed.

Lemma resolveFile_extends machine ldCache a gpuFile s :
  extends a (value (resolveFile machine ldCache a gpuFile s)).
Proof.
  destruct (Contains gpuFile ".so") eqn:Hso.
  - destruct (resolveFile_library machine ldCache a gpuFile s Hso) as (-> & _).
    apply scan_extends.
  - rewrite resolveFile_binary by done. unfold value; simpl.
    destruct (lookPath (st_env s) gpuFile); [|done].
    case_decide; [done|]. repeat split; simpl; try done.
    + by apply prefix_app_r.
    + apply union_subseteq_r.
Qed.

Lemma resolveFrom_extends machine ldCache a gpuFiles s :
  extends a (value (resolveFrom machine ldCache a gpuFiles s)).
Proof. apply (forEach_grows _ extends). intros. apply resolveFile_extends. Qed.
End Resolution.

(** ** The candidate lists *)

Lemma foldl_listLine `{Host} (lines acc : list string) :
  foldl gpu.listLine acc lines =
    acc ++ filter (λ line, kept line) (TrimSpace <$> lines).
Proof.
  revert acc. induction lines as [|text lines IH]; intros acc; simpl.
  - by rewrite app_nil_r.
  - rewrite IH. unfold gpu.listLine. cbv zeta. fold (kept (TrimSpace text)).
    rewrite filter_cons. destruct (kept (TrimSpace text)); simpl; [|done].
    by rewrite <- app_assoc.
Qed.

Lemma firstByteIs_HasPrefix (line : string) :
  negb (HasPrefix line "#") && bool_decide (line ≠ "") = kept line.
Proof.
  unfold kept. destruct line as [|c line]; [done|].
  change (HasPrefix (String c line) "#")
    with (if Ascii.eqb "#" c then true else false).
  change (firstByteIs "#" (String c line)) with (Ascii.eqb c "#").
  rewrite (Ascii.eqb_sym c), bool_decide_eq_true_2 by done.
  by destruct (Ascii.eqb "#" c).
Qed.

Lemma foldl_listLine_utils `{Host} (lines acc : list string) :
  foldl gpuutils.listLine acc lines =
    acc ++ filter (λ line, kept line) (TrimSpace <$> lines).
Proof.
  revert acc. induction lines as [|text lines IH]; intros acc; simpl.
  - by rewrite app_nil_r.
  - rewrite IH. unfold gpuutils.listLine. cbv zeta. rewrite firstByteIs_HasPrefix.
    rewrite filter_cons. destruct (kept (TrimSpace text)); simpl; [|done].
    by rewrite <- app_assoc.
Qed.

Section Candidates.
Context `{Host}.

Lemma gpuContainerCli_run (s : state) :
  ∃ rest,
    gpu.gpuContainerCli s =
      (value (gpu.gpuContainerCli s), s, EvLookPath "nvidia-container-cli" :: rest) ∧
    Forall (λ e, isEnvCall e = false ∧ isOpen e = false) rest.
Proof.
  unfold gpu.gpuContainerCli, mbind, M_bind, LookPath, Output, value; simpl.
  destruct (lookPath (st_env s) "nvidia-container-cli") as [path|]; simpl.
  - destruct (output (st_env s) path _); simpl; eexists; (split; [done|]);
      by repeat constructor.
  - eexists; split; [done | constructor].
Qed.

Lemma gpuContainerCli_run_utils (s : state) :
  ∃ rest,
    gpuutils.gpuContainerCli s =
      (value (gpuutils.gpuContainerCli s), s, EvLookPath "nvidia-container-cli" :: rest) ∧
    Forall (λ e, isEnvCall e = false ∧ isOpen e = false) rest.
Proof.
  unfold gpuutils.gpuContainerCli, mbind, M_bind, LookPath, Output, value; simpl.
  destruct (lookPath (st_env s) "nvidia-container-cli") as [path|]; simpl.
  - destruct (output (st_env s) path _); simpl; eexists; (split; [done|]);
      by repeat constructor.
  - eexists; split; [done | constructor].
Qed.

Lemma gpuliblist_run (gpuDir filename : string) (s : state) :
  let path := Join gpuDir filename in
  gpu.gpuliblist gpuDir filename s =
    match openFile path with
    | Some text =>
        (inl (filter (λ line, kept line) (TrimSpace <$> scanLines text)), s,
         [EvOpen path; EvClose path])
    | None =>
        (inr (Errorf ("could not open " +:+ path) (HostError (EvOpen path))), s,
         [EvOpen path])
    end.
Proof.
  unfold gpu.gpuliblist, mbind, M_bind, Open, Close; simpl.
  destruct (openFile (Join gpuDir filename)); simpl; [|done].
  by rewrite foldl_listLine.
Qed.

Lemma gpuLiblist_run (abspath filename : string) (s : state) :
  let path := abspath +:+ "/" +:+ filename in
  gpuutils.gpuLiblist abspath filename s =
    match openFile path with
    | Some text =>
        (inl (filter (λ line, kept line) (TrimSpace <$> scanLines text)), s,
         [EvOpen path; EvClose path])
    | None => (inr (Errorf "" (HostError (EvOpen path))), s, [EvOpen path])
    end.
Proof.
  unfold gpuutils.gpuLiblist, mbind, M_bind, Open, Close; simpl.
  destruct (openFile _); simpl; [|done].
  by rewrite foldl_listLine_utils.
Qed.
End Candidates.

(** ** From the candidate names to the result *)

Section Lookup.
Context `{Host}.

Lemma lookup_run (gpuFiles : list string) (s : state) :
  gpu.lookup gpuFiles s =
    match output (st_env s) "ldconfig" ["-p"] with
    | None =>
        (([], [], Some (Errorf "could not execute ldconfig"
                               (HostError (EvCommand "ldconfig" ["-p"])))),
         s, [EvCommand "ldconfig" ["-p"]])
    | Some out =>
        match elfMachine "/proc/self/exe" with
        | None =>
            (([], [], Some (Errorf "could not open /proc/self/exe"
                                   (HostError (EvElfOpen "/proc/self/exe")))),
             s, [EvCommand "ldconfig" ["-p"]; EvElfOpen "/proc/self/exe"])
        | Some machine =>
            let r := resolve machine (ldCacheOf out) gpuFiles s in
            ((libraries (value r), binaries (value r), None), final r,
             [EvCommand "ldconfig" ["-p"]; EvElfOpen "/proc/self/exe";
              EvClose "/proc/self/exe"] ++ calls r)
        end
    end.
Proof.
  unfold gpu.lookup, mbind, M_bind, Output, elfOpen, Close; simpl.
  destruct (output (st_env s) "ldconfig" ["-p"]) as [out|]; simpl; [|done].
  destruct (elfMachine "/proc/self/exe") as [machine|]; simpl; [|done].
  unfold value, final, calls.
  destruct (resolve machine (ldCacheOf out) gpuFiles s) as [[a s'] t]; simpl.
  by rewrite app_nil_r.
Qed.

Lemma lookup_run_utils (strArray : list string) (s : state) :
  gpuutils.lookup strArray s =
    match output (st_env s) "ldconfig" ["-p"] with
    | None =>
        (([], [], Some (HostError (EvCommand "ldconfig" ["-p"]))),
         s, [EvCommand "ldconfig" ["-p"]])
    | Some out =>
        match elfMachine "/proc/self/exe" with
        | None =>
            (([], [], Some (HostError (EvElfOpen "/proc/self/exe"))),
             s, [EvCommand "ldconfig" ["-p"]; EvElfOpen "/proc/self/exe"])
        | Some machine =>
            let r := resolve machine (ldCacheOf out) strArray s in
            ((libraries (value r), binaries (value r), None), final r,
             [EvCommand "ldconfig" ["-p"]; EvElfOpen "/proc/self/exe";
              EvClose "/proc/self/exe"] ++ calls r)
        end
    end.
Proof.
  unfold gpuutils.lookup, mbind, M_bind, Output, elfOpen, Close; simpl.
  destruct (output (st_env s) "ldconfig" ["-p"]) as [out|]; simpl; [|done].
  destruct (elfMachine "/proc/self/exe") as [machine|]; simpl; [|done].
  unfold value, final, calls.
  destruct (resolve machine (ldCacheOf out) strArray s) as [[a s'] t]; simpl.
  by rewrite app_nil_r.
Qed.

Lemma lookup_outcome (gpuFiles : list string) (s : state) :
  outcome (value (gpu.lookup gpuFiles s)) ∧
  st_env (final (gpu.lookup gpuFiles s)) = st_env s ∧
  Forall (λ e, isEnvCall e = false ∧ isOpen e = false)
         (calls (gpu.lookup gpuFiles s)).
Proof.
  rewrite lookup_run.
  destruct (output (st_env s) "ldconfig" ["-p"]) as [out|].
  - destruct (elfMachine "/proc/self/exe") as [machine|] eqn:Hself.
    + cbv zeta. repeat split.
      * right. by exists machine, (ldCacheOf out), gpuFiles, s.
      * apply resolveFrom_env.
      * unfold calls at 1; simpl. repeat (apply Forall_cons_2; [done|]).
        eapply Forall_impl; [apply resolveFrom_calls|]. by intros [].
    + repeat split; [left; by eexists | by repeat constructor].
  - repeat split; [left; by eexists | by repeat constructor].
Qed.

Lemma lookup_outcome_utils (strArray : list string) (s : state) :
  outcome (value (gpuutils.lookup strArray s)) ∧
  st_env (final (gpuutils.lookup strArray s)) = st_env s ∧
  Forall (λ e, isEnvCall e = false ∧ isOpen e = false)
         (calls (gpuutils.lookup strArray s)).
Proof.
  rewrite lookup_run_utils.
  destruct (output (st_env s) "ldconfig" ["-p"]) as [out|].
  - destruct (elfMachine "/proc/self/exe") as [machine|] eqn:Hself.
    + cbv zeta. repeat split.
      * right. by exists machine, (ldCacheOf out), strArray, s.
      * apply resolveFrom_env.
      * unfold calls at 1; simpl. repeat (apply Forall_cons_2; [done|]).
        eapply Forall_impl; [apply resolveFrom_calls|]. by intros [].
    + repeat split; [left; by eexists | by repeat constructor].
  - repeat split; [left; by eexists | by repeat constructor].
Qed.
End Lookup.

(** ** The two functions *)

Section Functions.
Context `{Host}.

(** A call with no override, in terms of its parts. *)
Lemma Paths_plain (gpuDir : string) (gpu : GpuCfg) (s : state) :
  gpu.Paths gpuDir "" gpu s =
    let cli := gpu.gpuContainerCli s in
    match value cli with
    | inl gpuFiles =>
        let r := gpu.lookup gpuFiles s in
        (value r, final r, calls cli ++ calls r)
    | inr _ =>
        let path := Join gpuDir (File gpu) in
        match openFile path with
        | Some text =>
            let r := gpu.lookup
                       (filter (λ line, kept line) (TrimSpace <$> scanLines text)) s in
            (value r, final r, calls cli ++ [EvOpen path; EvClose path] ++ calls r)
        | None =>
            (([], [], Some (Errorf ("could not read " +:+ File gpu)
                              (Errorf ("could not open " +:+ path)
                                      (HostError (EvOpen path))))),
             s, calls cli ++ [EvOpen path])
        end
    end.
Proof.
  unfold gpu.Paths. destruct (gpuContainerCli_run s) as (rest & Hcli & _).
  cbv zeta. revert Hcli. generalize (value (gpu.gpuContainerCli s)) as cli.
  intros cli Hcli. rewrite Hcli. unfold calls at 1 2 3; simpl.
  unfold mbind, M_bind; simpl. rewrite Hcli. destruct cli as [gpuFiles|err].
  - unfold value, final, calls. destruct (gpu.lookup gpuFiles s) as [[r s'] t]; simpl.
    by rewrite !app_nil_r.
  - rewrite gpuliblist_run. cbv zeta.
    destruct (openFile (Join gpuDir (File gpu))) as [text|]; simpl;
      [|by rewrite app_nil_r].
    unfold value, final, calls. destruct (gpu.lookup _ s) as [[r s'] t]; simpl.
    by rewrite !app_nil_r.
Qed.

Lemma GetGpuPath_plain (abspath : string) (gpu : GpuCfg) (s : state) :
  gpuutils.GetGpuPath abspath "" gpu s =
    let cli := gpuutils.gpuContainerCli s in
    match value cli with
    | inl strArray =>
        let r := gpuutils.lookup strArray s in
        (value r, final r, calls cli ++ calls r)
    | inr _ =>
        let path := abspath +:+ "/" +:+ File gpu in
        match openFile path with
        | Some text =>
            let r := gpuutils.lookup
                       (filter (λ line, kept line) (TrimSpace <$> scanLines text)) s in
            (value r, final r, calls cli ++ [EvOpen path; EvClose path] ++ calls r)
        | None =>
            (([], [], Some (Errorf "" (HostError (EvOpen path)))),
             s, calls cli ++ [EvOpen path])
        end
    end.
Proof.
  unfold gpuutils.GetGpuPath. destruct (gpuContainerCli_run_utils s) as (rest & Hcli & _).
  cbv zeta. revert Hcli. generalize (value (gpuutils.gpuContainerCli s)) as cli.
  intros cli Hcli. rewrite Hcli. unfold calls at 1 2 3; simpl.
  unfold mbind, M_bind; simpl. rewrite Hcli. destruct cli as [strArray|err].
  - unfold value, final, calls. destruct (gpuutils.lookup strArray s) as [[r s'] t]; simpl.
    by rewrite !app_nil_r.
  - rewrite gpuLiblist_run. cbv zeta.
    destruct (openFile (abspath +:+ "/" +:+ File gpu)) as [text|]; simpl;
      [|by rewrite app_nil_r].
    unfold value, final, calls. destruct (gpuutils.lookup _ s) as [[r s'] t]; simpl.
    by rewrite !app_nil_r.
Qed.

(** A call with an override is the call with none, in an environment where
    [PATH] is the override, between the save and the restoration. *)
Lemma Paths_override (gpuDir envPath : string) (gpu : GpuCfg) (s : state) :
  envPath ≠ "" →
  let oldPath := default "" (st_env s !! "PATH") in
  let inner := gpu.Paths gpuDir "" gpu (entered envPath s) in
  gpu.Paths gpuDir envPath gpu s =
    (value inner,
     State (<["PATH":=oldPath]> (st_env (final inner))) (st_range (final inner)),
     [EvGetenv "PATH"; EvSetenv "PATH" envPath] ++ calls inner ++
     [EvSetenv "PATH" oldPath]).
Proof.
  intros Hne. unfold entered. rewrite decide_True by done. unfold gpu.Paths.
  set (body := gpu.gpuContainerCli ≫= _).
  rewrite decide_True by done. rewrite decide_False by (by intros Hn).
  unfold mbind, M_bind, Getenv, Setenv, value, final, calls; simpl.
  destruct (body _) as [[r s'] t]; simpl. by rewrite !app_nil_r.
Qed.
Lemma GetGpuPath_override (abspath envPath : string) (gpu : GpuCfg) (s : state) :
  envPath ≠ "" →
  let oldPath := default "" (st_env s !! "PATH") in
  let inner := gpuutils.GetGpuPath abspath "" gpu (entered envPath s) in
  gpuutils.GetGpuPath abspath envPath gpu s =
    (value inner,
     State (<["PATH":=oldPath]> (st_env (final inner))) (st_range (final inner)),
     [EvGetenv "PATH"; EvSetenv "PATH" envPath] ++ calls inner ++
     [EvSetenv "PATH" oldPath]).
Proof.
  intros Hne. unfold entered. rewrite decide_True by done.
  unfold gpuutils.GetGpuPath.
  set (body := gpuutils.gpuContainerCli ≫= _).
  rewrite decide_True by done. rewrite decide_False by (by intros Hn).
  unfold mbind, M_bind, Getenv, Setenv, value, final, calls; simpl.
  destruct (body _) as [[r s'] t]; simpl. by rewrite !app_nil_r.
Qed.

(** What holds of every call with no override. *)
Lemma Paths_plain_run (gpuDir : string) (gpu : GpuCfg) (s : state) :
  outcome (value (gpu.Paths gpuDir "" gpu s)) ∧
  st_env (final (gpu.Paths gpuDir "" gpu s)) = st_env s ∧
  Forall (λ e, isEnvCall e = false) (calls (gpu.Paths gpuDir "" gpu s)).
Proof.
  rewrite Paths_plain. cbv zeta.
  destruct (gpuContainerCli_run s) as (rest & Hcli & Hrest).
  assert (Forall (λ e, isEnvCall e = false) (calls (gpu.gpuContainerCli s))) as Hcalls.
  { rewrite Hcli. unfold calls at 1; simpl. constructor; [done|].
    eapply Forall_impl; [done|]. by intros e [? _]. }
  destruct (value (gpu.gpuContainerCli s)) as [gpuFiles|err].
  - destruct (lookup_outcome gpuFiles s) as (Hout & Henv & Hlook).
    repeat split; [done..|]. unfold calls at 1; simpl.
    apply Forall_app. split; [done|].
    eapply Forall_impl; [done|]. by intros e [? _].
  - destruct (openFile (Join gpuDir (File gpu))) as [text|].
    + destruct (lookup_outcome
                  (filter (λ line, kept line) (TrimSpace <$> scanLines text)) s)
        as (Hout & Henv & Hlook).
      repeat split; [done..|]. unfold calls at 1; simpl.
      apply Forall_app. split; [done|]. repeat (constructor; [done|]).
      eapply Forall_impl; [done|]. by intros e [? _].
    + repeat split; [left; by eexists|]. unfold calls at 1; simpl.
      apply Forall_app. split; [done | by repeat constructor].
Qed.

Lemma GetGpuPath_plain_run (abspath : string) (gpu : GpuCfg) (s : state) :
  outcome (value (gpuutils.GetGpuPath abspath "" gpu s)) ∧
  st_env (final (gpuutils.GetGpuPath abspath "" gpu s)) = st_env s ∧
  Forall (λ e, isEnvCall e = false) (calls (gpuutils.GetGpuPath abspath "" gpu s)).
Proof.
  rewrite GetGpuPath_plain. cbv zeta.
  destruct (gpuContainerCli_run_utils s) as (rest & Hcli & Hrest).
  assert (Forall (λ e, isEnvCall e = false) (calls (gpuutils.gpuContainerCli s)))
    as Hcalls.
  { rewrite Hcli. unfold calls at 1; simpl. constructor; [done|].
    eapply Forall_impl; [done|]. by intros e [? _]. }
  destruct (value (gpuutils.gpuContainerCli s)) as [strArray|err].
  - destruct (lookup_outcome_utils strArray s) as (Hout & Henv & Hlook).
    repeat split; [done..|]. unfold calls at 1; simpl.
    apply Forall_app. split; [done|].
    eapply Forall_impl; [done|]. by intros e [? _].
  - destruct (openFile (abspath +:+ "/" +:+ File gpu)) as [text|].
    + destruct (lookup_outcome_utils
                  (filter (λ line, kept line) (TrimSpace <$> scanLines text)) s)
        as (Hout & Henv & Hlook).
      repeat split; [done..|]. unfold calls at 1; simpl.
      apply Forall_app. split; [done|]. repeat (constructor; [done|]).
      eapply Forall_impl; [done|]. by intros e [? _].
    + repeat split; [left; by eexists|]. unfold calls at 1; simpl.
      apply Forall_app. split; [done | by repeat constructor].
Qed.

(** The result of a call with an override is a result of a call with none. *)
Lemma Paths_outcome (gpuDir envPath : string) (gpu : GpuCfg) (s : state) :
  outcome (value (gpu.Paths gpuDir envPath gpu s)).
Proof.
  destruct (decide (envPath = "")) as [->|Hne].
  - apply Paths_plain_run.
  - rewrite Paths_override by done. apply Paths_plain_run.
Qed.

Lemma GetGpuPath_outcome (abspath envPath : string) (gpu : GpuCfg) (s : state) :
  outcome (value (gpuutils.GetGpuPath abspath envPath gpu s)).
Proof.
  destruct (decide (envPath = "")) as [->|Hne].
  - apply GetGpuPath_plain_run.
  - rewrite GetGpuPath_override by done. apply GetGpuPath_plain_run.
Qed.

(** Every call, in terms of the call with no override. *)
Lemma Paths_wrapped (gpuDir envPath : string) (gpu : GpuCfg) (s : state) :
  let inner := gpu.Paths gpuDir "" gpu (entered envPath s) in
  value (gpu.Paths gpuDir envPath gpu s) = value inner ∧
  calls (gpu.Paths gpuDir envPath gpu s) =
    prologue envPath ++ calls inner ++ epilogue envPath s.
Proof.
  unfold prologue, epilogue. destruct (decide (envPath = "")) as [->|Hne].
  - change (entered "" s) with s. simpl. by rewrite app_nil_r.
  - rewrite Paths_override by done. by rewrite !decide_True.
Qed.

Lemma GetGpuPath_wrapped (abspath envPath : string) (gpu : GpuCfg) (s : state) :
  let inner := gpuutils.GetGpuPath abspath "" gpu (entered envPath s) in
  value (gpuutils.GetGpuPath abspath envPath gpu s) = value inner ∧
  calls (gpuutils.GetGpuPath abspath envPath gpu s) =
    prologue envPath ++ calls inner ++ epilogue envPath s.
Proof.
  unfold prologue, epilogue. destruct (decide (envPath = "")) as [->|Hne].
  - change (entered "" s) with s. simpl. by rewrite app_nil_r.
  - rewrite GetGpuPath_override by done. by rewrite !decide_True.
Qed.

Lemma prologue_quiet (envPath : string) :
  Forall (λ e, isOpen e = false) (prologue envPath).
Proof. unfold prologue. case_decide; by repeat constructor. Qed.

Lemma epilogue_quiet (envPath : string) (s : state) :
  Forall (λ e, isOpen e = false) (epilogue envPath s).
Proof. unfold epilogue. case_decide; by repeat constructor. Qed.
End Functions.

(** * The claims *)

Section Claims.
Context `{Host}.

Lemma outcome_once (r : result) :
  outcome r → NoDup r.1.1 ∧ NoDup r.1.2.
Proof.
  intros [[err ->] | (machine & ldCache & gpuFiles & s & _ & ->)]; simpl.
  - split; constructor.
  - destruct (resolve_consistent machine ldCache gpuFiles s) as [_ Hnames _ Hbins _].
    split; [by eapply NoDup_fmap_1 | done].
Qed.


(** C3.  A path is in the library list only if the file at that path opens
    with the reference architecture: in the loop, for every reference
    architecture, cache and candidate list; and in what [Paths] and
    [GetGpuPath] return, where the reference is the architecture of
    [/proc/self/exe].  A name equal to a candidate makes no exception. *)
Theorem libraries_have_reference_architecture
    (machine : Machine) (ldCache : gmap string string)
    (gpuFiles : list string) (s : state)
    (gpuDir envPath : string) (gpu : GpuCfg) :
  Forall (λ libPath, elfMachine libPath = Some machine)
         (libraries (value (resolve machine ldCache gpuFiles s))) ∧
  Forall (λ libPath, is_Some (elfMachine libPath) ∧
                     elfMachine libPath = elfMachine "/proc/self/exe")
         (value (gpu.Paths gpuDir envPath gpu s)).1.1 ∧
  Forall (λ libPath, is_Some (elfMachine libPath) ∧
                     elfMachine libPath = elfMachine "/proc/self/exe")
         (value (gpuutils.GetGpuPath gpuDir envPath gpu s)).1.1.
Proof.
  assert (∀ m c g s', Forall (λ libPath, elfMachine libPath = Some m)
                        (libraries (value (resolve m c g s')))) as Hloop.
  { intros m c g s'. apply Forall_forall. intros libPath Hin.
    destruct (resolve_consistent m c g s') as [Horigin _ _ _ _].
    by destruct (Horigin _ Hin) as (? & ? & ? & ? & ? & ? & ? & ?). }
  assert (∀ r, outcome r →
            Forall (λ libPath, is_Some (elfMachine libPath) ∧
                               elfMachine libPath = elfMachine "/proc/self/exe")
                   r.1.1) as Hout.
  { intros r [[err ->] | (m & c & g & s' & Hself & ->)]; simpl; [constructor|].
    eapply Forall_impl; [apply Hloop|]. simpl. intros libPath ->. by rewrite Hself. }
  split; [apply Hloop|]. split; apply Hout.
  - apply Paths_outcome.
  - apply GetGpuPath_outcome.
Qed.

(** C8.  Every path in the library list is a key of the cache, recorded
    under a name that starts with one of the candidate names that contain
    the marker: the name is the candidate followed by something, possibly
    nothing. *)
Theorem library_name_starts_with_candidate
    (machine : Machine) (ldCache : gmap string string)
    (gpuFiles : list string) (s : state) :
  Forall (λ libPath,
            ∃ libName gpuFile,
              ldCache !! libPath = Some libName ∧
              gpuFile ∈ gpuFiles ∧ Contains gpuFile ".so" = true ∧
              HasPrefix libName gpuFile = true ∧
              ∃ rest, libName = gpuFile +:+ rest)
         (libraries (value (resolve machine ldCache gpuFiles s))).
Proof.
  apply Forall_forall. intros libPath Hin.
  destruct (resolve_consistent machine ldCache gpuFiles s) as [Horigin _ _ _ _].
  destruct (Horigin _ Hin) as (libName & gpuFile & ? & ? & ? & ? & Hpre & ?).
  exists libName, gpuFile. repeat split; try done. by apply HasPrefix_spec.
Qed.
End Claims.

(** ** A single entry, and two entries under one name *)

Section Entries.
Context `{Host}.

(** C7.  With the cache [{"/usr/lib/libfoo.so.1": "libfoo.so.1"}], the
    candidate list [["libfoo.so"]] and a file at that path whose architecture
    is the reference one, the library list is [["/usr/lib/libfoo.so.1"]]
    (and no binary is found). *)
Theorem libfoo_scenario (machine : Machine) (s : state) :
  elfMachine "/usr/lib/libfoo.so.1" = Some machine →
  let a := value (resolve machine {[ "/usr/lib/libfoo.so.1" := "libfoo.so.1" ]}
                          ["libfoo.so"] s) in
  libraries a = ["/usr/lib/libfoo.so.1"] ∧ binaries a = [].
Proof.
  intros Helf a. subst a. unfold resolve, resolveFrom. simpl. run.
  destruct (resolveFile_library machine
              {[ "/usr/lib/libfoo.so.1" := "libfoo.so.1" ]} nothing "libfoo.so" s)
    as (-> & _); [done|].
  pose proof (rangeOrder_perm (st_range s)
                {[ "/usr/lib/libfoo.so.1" := "libfoo.so.1" ]}) as Hperm.
  rewrite map_to_list_singleton in Hperm.
  apply Permutation_singleton_r in Hperm. rewrite Hperm. simpl. run.
  rewrite matchEntry_value, Helf.
  rewrite (bool_decide_eq_true_2 (Some machine = Some machine)) by done.
  by rewrite bool_decide_eq_true_2 by apply not_elem_of_empty.
Qed.


End Entries.

(** C7 on the lab host. *)
Lemma libfoo_scenario_lab :
  @elfMachine lab "/usr/lib/libfoo.so.1" = Some 62%N ∧
  let a := value (@resolve lab 62%N {[ "/usr/lib/libfoo.so.1" := "libfoo.so.1" ]}
                           ["libfoo.so"] (labState "/usr/bin:/sbin")) in
  libraries a = ["/usr/lib/libfoo.so.1"] ∧ binaries a = [].
Proof.
  split; [reflexivity|].
  apply (@libfoo_scenario lab 62%N (labState "/usr/bin:/sbin")). reflexivity.
Defined.



(** ** Libraries and binaries, failures *)

Section Routing.
Context `{Host}.

(** C9.  A candidate name is a library name exactly when [".so"] occurs in
    it, at whatever offset.  Such a name is matched against the cache: no
    executable lookup is made for it and neither [binaries] nor [bins]
    changes.  Any other name is looked up as an executable, once, and neither
    [libraries] nor [libs] changes. *)
Theorem marker_anywhere_means_library
    (machine : Machine) (ldCache : gmap string string)
    (a : found) (gpuFile : string) (s : state) :
  let r := resolveFile machine ldCache a gpuFile s in
  (Contains gpuFile ".so" = true ↔
     ∃ before after, gpuFile = before +:+ ".so" +:+ after) ∧
  (if Contains gpuFile ".so"
   then
     value r = value (forEach (matchEntry machine gpuFile) a
                        (rangeOrder (st_range s) ldCache)
                        (State (st_env s) (S (st_range s)))) ∧
     Forall (λ e, isLookPath e = false) (calls r) ∧
     binaries (value r) = binaries a ∧ bins (value r) = bins a
   else
     calls r = [EvLookPath gpuFile] ∧
     libraries (value r) = libraries a ∧ libs (value r) = libs a).
Proof.
  intros r. split; [apply Contains_spec|].
  destruct (Contains gpuFile ".so") eqn:Hso.
  - destruct (resolveFile_library machine ldCache a gpuFile s Hso)
      as (Hvalue & _ & Hcalls).
    subst r. rewrite Hvalue, Hcalls. split; [done|]. split.
    + eapply Forall_impl; [apply scan_calls|].
      intros e [He | [path ->]]; [by destruct e | done].
    + apply (forEach_keeps _ (λ a', binaries a' = binaries a ∧ bins a' = bins a));
        [|done].
      intros a' [libPath libName] s' _ [Hbinaries Hbins]. rewrite matchEntry_value.
      by destruct (_ && _).
  - subst r. rewrite resolveFile_binary by done. unfold calls, value; simpl.
    split; [done|]. destruct (lookPath (st_env s) gpuFile); [|done].
    by case_decide.
Qed.

(** C5.  [Paths] and [GetGpuPath] return an error, with both lists empty,
    when [ldconfig -p] cannot be run in the environment of the call or when
    the architecture of [/proc/self/exe] cannot be read.  A binary that is
    not found and a library file that cannot be opened change none of the
    loop variables; the loop goes on to the end of the candidate list, what
    was in the two lists stays at their front, and once [ldconfig] has run
    and the reference architecture is read the call returns no error. *)
Theorem fatal_and_skipped_failures
    (gpuDir envPath : string) (gpu : GpuCfg) (s : state) :
  (output (st_env (entered envPath s)) "ldconfig" ["-p"] = None ∨
   elfMachine "/proc/self/exe" = None →
     (∃ err, value (gpu.Paths gpuDir envPath gpu s) = ([], [], Some err)) ∧
     (∃ err, value (gpuutils.GetGpuPath gpuDir envPath gpu s) = ([], [], Some err))) ∧
  (∀ machine ldCache a gpuFile s',
     Contains gpuFile ".so" = false → lookPath (st_env s') gpuFile = None →
     value (resolveFile machine ldCache a gpuFile s') = a) ∧
  (∀ machine gpuFile a libPath libName s',
     elfMachine libPath = None →
     value (matchEntry machine gpuFile a (libPath, libName) s') = a) ∧
  (∀ machine ldCache a gpuFiles s',
     libraries a `prefix_of`
       libraries (value (resolveFrom machine ldCache a gpuFiles s')) ∧
     binaries a `prefix_of`
       binaries (value (resolveFrom machine ldCache a gpuFiles s'))) ∧
  (∀ gpuFiles s' out machine,
     output (st_env s') "ldconfig" ["-p"] = Some out →
     elfMachine "/proc/self/exe" = Some machine →
     let a := value (resolve machine (ldCacheOf out) gpuFiles s') in
     value (gpu.lookup gpuFiles s') = (libraries a, binaries a, None) ∧
     value (gpuutils.lookup gpuFiles s') = (libraries a, binaries a, None)).
Proof.
  split; [intros Hfail; split|].
  - destruct (Paths_wrapped gpuDir envPath gpu s) as [-> _].
    rewrite Paths_plain. cbv zeta.
    destruct (value (gpu.gpuContainerCli _)) as [gpuFiles|err];
      [|destruct (openFile _) as [text|]; [|project; by eexists]];
      rewrite lookup_run; project;
      (destruct Hfail as [-> | Hself]; [by eexists|]);
      destruct (output _ _ _); rewrite ?Hself; by eexists.
  - destruct (GetGpuPath_wrapped gpuDir envPath gpu s) as [-> _].
    rewrite GetGpuPath_plain. cbv zeta.
    destruct (value (gpuutils.gpuContainerCli _)) as [strArray|err];
      [|destruct (openFile _) as [text|]; [|project; by eexists]];
      rewrite lookup_run_utils; project;
      (destruct Hfail as [-> | Hself]; [by eexists|]);
      destruct (output _ _ _); rewrite ?Hself; by eexists.
  - split; [|split; [|split]].
    + intros machine ldCache a gpuFile s' Hso Hnone.
      rewrite resolveFile_binary by done. project. by rewrite Hnone.
    + intros machine gpuFile a libPath libName s' Hnone.
      rewrite matchEntry_value, Hnone.
      rewrite (bool_decide_eq_false_2 (None = Some machine)) by done.
      by rewrite andb_false_r.
    + intros machine ldCache a gpuFiles s'.
      by destruct (resolveFrom_extends machine ldCache a gpuFiles s') as (? & ? & _).
    + intros gpuFiles s' out machine Hout Hself. cbv zeta.
      by rewrite lookup_run, lookup_run_utils, Hout, Hself.
Qed.
End Routing.

(** ** The providers and the search path *)

Section Providers.
Context `{Host}.

Lemma Paths_plain_providers (gpuDir : string) (gpu : GpuCfg) (s : state) :
  let run := gpu.Paths gpuDir "" gpu s in
  (∃ rest, calls run = EvLookPath "nvidia-container-cli" :: rest) ∧
  match value (gpu.gpuContainerCli s) with
  | inl gpuFiles =>
      value run = value (gpu.lookup gpuFiles s) ∧
      Forall (λ e, isOpen e = false) (calls run)
  | inr _ =>
      EvOpen (Join gpuDir (File gpu)) ∈ calls run ∧
      match openFile (Join gpuDir (File gpu)) with
      | Some text =>
          value run =
            value (gpu.lookup
                     (filter (λ line, kept line) (TrimSpace <$> scanLines text)) s)
      | None => ∃ err, value run = ([], [], Some err)
      end
  end.
Proof.
  cbv zeta. rewrite Paths_plain. cbv zeta.
  destruct (gpuContainerCli_run s) as (rest & Hcli & Hrest).
  assert (calls (gpu.gpuContainerCli s) = EvLookPath "nvidia-container-cli" :: rest)
    as Hcalls by by rewrite Hcli.
  rewrite Hcalls. destruct (value (gpu.gpuContainerCli s)) as [gpuFiles|err].
  - project. split; [by eexists|]. split; [done|].
    constructor; [done|]. apply Forall_app. split.
    + eapply Forall_impl; [done|]. by intros e [_ ?].
    + destruct (lookup_outcome gpuFiles s) as (_ & _ & Hlook).
      eapply Forall_impl; [done|]. by intros e [_ ?].
  - destruct (openFile (Join gpuDir (File gpu))) as [text|]; project.
    + split; [by eexists|]. split; [|done].
      right. apply elem_of_app. right. left.
    + split; [by eexists|]. split; [|by eexists].
      right. apply elem_of_app. right. left.
Qed.

Lemma GetGpuPath_plain_providers (abspath : string) (gpu : GpuCfg) (s : state) :
  let run := gpuutils.GetGpuPath abspath "" gpu s in
  (∃ rest, calls run = EvLookPath "nvidia-container-cli" :: rest) ∧
  match value (gpuutils.gpuContainerCli s) with
  | inl strArray =>
      value run = value (gpuutils.lookup strArray s) ∧
      Forall (λ e, isOpen e = false) (calls run)
  | inr _ =>
      EvOpen (abspath +:+ "/" +:+ File gpu) ∈ calls run ∧
      match openFile (abspath +:+ "/" +:+ File gpu) with
      | Some text =>
          value run =
            value (gpuutils.lookup
                     (filter (λ line, kept line) (TrimSpace <$> scanLines text)) s)
      | None => ∃ err, value run = ([], [], Some err)
      end
  end.
Proof.
  cbv zeta. rewrite GetGpuPath_plain. cbv zeta.
  destruct (gpuContainerCli_run_utils s) as (rest & Hcli & Hrest).
  assert (calls (gpuutils.gpuContainerCli s) =
          EvLookPath "nvidia-container-cli" :: rest) as Hcalls by by rewrite Hcli.
  rewrite Hcalls. destruct (value (gpuutils.gpuContainerCli s)) as [strArray|err].
  - project. split; [by eexists|]. split; [done|].
    constructor; [done|]. apply Forall_app. split.
    + eapply Forall_impl; [done|]. by intros e [_ ?].
    + destruct (lookup_outcome_utils strArray s) as (_ & _ & Hlook).
      eapply Forall_impl; [done|]. by intros e [_ ?].
  - destruct (openFile (abspath +:+ "/" +:+ File gpu)) as [text|]; project.
    + split; [by eexists|]. split; [|done].
      right. apply elem_of_app. right. left.
    + split; [by eexists|]. split; [|by eexists].
      right. apply elem_of_app. right. left.
Qed.

(** C4.  After the override of [PATH], if any, the first thing a call does
    is look [nvidia-container-cli] up.  When the helper tool gives a list,
    that list is the candidate list and no file is opened by [os.Open] at
    all; when it gives an error, the list file is opened, and its trimmed
    lines that are neither empty nor start with [#] are the candidate list,
    as they are; when the list file cannot be opened either, the call returns
    an error and two empty lists. *)
Theorem helper_tool_first_then_list_file
    (gpuDir envPath : string) (gpu : GpuCfg) (s : state) :
  let s1 := entered envPath s in
  ((∃ rest, calls (gpu.Paths gpuDir envPath gpu s) =
              prologue envPath ++ EvLookPath "nvidia-container-cli" :: rest) ∧
   match value (gpu.gpuContainerCli s1) with
   | inl gpuFiles =>
       value (gpu.Paths gpuDir envPath gpu s) = value (gpu.lookup gpuFiles s1) ∧
       Forall (λ e, isOpen e = false) (calls (gpu.Paths gpuDir envPath gpu s))
   | inr _ =>
       EvOpen (Join gpuDir (File gpu)) ∈ calls (gpu.Paths gpuDir envPath gpu s) ∧
       match openFile (Join gpuDir (File gpu)) with
       | Some text =>
           value (gpu.Paths gpuDir envPath gpu s) =
             value (gpu.lookup
                      (filter (λ line, kept line) (TrimSpace <$> scanLines text)) s1)
       | None =>
           ∃ err, value (gpu.Paths gpuDir envPath gpu s) = ([], [], Some err)
       end
   end) ∧
  ((∃ rest, calls (gpuutils.GetGpuPath gpuDir envPath gpu s) =
              prologue envPath ++ EvLookPath "nvidia-container-cli" :: rest) ∧
   match value (gpuutils.gpuContainerCli s1) with
   | inl strArray =>
       value (gpuutils.GetGpuPath gpuDir envPath gpu s) =
         value (gpuutils.lookup strArray s1) ∧
       Forall (λ e, isOpen e = false)
              (calls (gpuutils.GetGpuPath gpuDir envPath gpu s))
   | inr _ =>
       EvOpen (gpuDir +:+ "/" +:+ File gpu) ∈
         calls (gpuutils.GetGpuPath gpuDir envPath gpu s) ∧
       match openFile (gpuDir +:+ "/" +:+ File gpu) with
       | Some text =>
           value (gpuutils.GetGpuPath gpuDir envPath gpu s) =
             value (gpuutils.lookup
                      (filter (λ line, kept line) (TrimSpace <$> scanLines text)) s1)
       | None =>
           ∃ err, value (gpuutils.GetGpuPath gpuDir envPath gpu s) =
                    ([], [], Some err)
       end
   end).
Proof.
  cbv zeta. split.
  - destruct (Paths_wrapped gpuDir envPath gpu s) as [-> ->].
    generalize (entered envPath s) as s1. intros s1.
    destruct (Paths_plain_providers gpuDir gpu s1) as [[rest ->] Hcases].
    split; [by eexists|].
    destruct (value (gpu.gpuContainerCli s1)) as [gpuFiles|err].
    + destruct Hcases as [-> Hquiet]. split; [done|].
      repeat (apply Forall_app; split);
        [apply prologue_quiet | done | apply epilogue_quiet].
    + destruct Hcases as [Hopen Hlist]. split; [|done].
      rewrite !elem_of_app. auto.
  - destruct (GetGpuPath_wrapped gpuDir envPath gpu s) as [-> ->].
    generalize (entered envPath s) as s1. intros s1.
    destruct (GetGpuPath_plain_providers gpuDir gpu s1) as [[rest ->] Hcases].
    split; [by eexists|].
    destruct (value (gpuutils.gpuContainerCli s1)) as [strArray|err].
    + destruct Hcases as [-> Hquiet]. split; [done|].
      repeat (apply Forall_app; split);
        [apply prologue_quiet | done | apply epilogue_quiet].
    + destruct Hcases as [Hopen Hlist]. split; [|done].
      rewrite !elem_of_app. auto.
Qed.
End Providers.

Section SearchPath.
Context `{Host}.

Lemma scopedOverride_intro (call : string → M result) (envPath : string) (s : state) :
  envPath ≠ "" →
  (∀ s', st_env (final (call "" s')) = st_env s' ∧
         Forall (λ e, isEnvCall e = false) (calls (call "" s'))) →
  call envPath s =
    (value (call "" (entered envPath s)),
     State (<["PATH":=default "" (st_env s !! "PATH")]>
              (st_env (final (call "" (entered envPath s)))))
           (st_range (final (call "" (entered envPath s)))),
     [EvGetenv "PATH"; EvSetenv "PATH" envPath] ++
     calls (call "" (entered envPath s)) ++
     [EvSetenv "PATH" (default "" (st_env s !! "PATH"))]) →
  scopedOverride call envPath s.
Proof.
  intros Hne Hplain Hrun. unfold scopedOverride. cbv zeta.
  unfold entered in Hrun. rewrite decide_True in Hrun by done.
  set (overridden := State (<["PATH":=envPath]> (st_env s)) (st_range s)) in *.
  destruct (Hplain overridden) as [Henv Hquiet].
  rewrite Hrun. project. rewrite Henv. simpl.
  repeat split; try done.
  - by rewrite insert_insert_eq.
  - by rewrite lookup_insert_eq.
  - intros [v Hv]. rewrite insert_insert_eq, Hv. simpl. by apply insert_id.
Qed.

(** C6.  With a non-empty override, [Paths] and [GetGpuPath] save [PATH],
    set it to the override before any other call, keep it there to the end
    of the body (the body is the call with no override, run with [PATH] at
    the override, and it makes no call that reads or writes the environment),
    and set [PATH] back to the saved value as their last call, whatever the
    result, an error included.  What is restored is the value [os.Getenv] had
    read: the environment is the one of before when [PATH] was set. *)
Theorem PATH_override_is_scoped
    (gpuDir envPath : string) (gpu : GpuCfg) (s : state) :
  envPath ≠ "" →
  scopedOverride (λ envPath, gpu.Paths gpuDir envPath gpu) envPath s ∧
  scopedOverride (λ envPath, gpuutils.GetGpuPath gpuDir envPath gpu) envPath s.
Proof.
  intros Hne. split; apply scopedOverride_intro; try done.
  - intros s'. by destruct (Paths_plain_run gpuDir gpu s') as (_ & ? & ?).
  - by apply Paths_override.
  - intros s'. by destruct (GetGpuPath_plain_run gpuDir gpu s') as (_ & ? & ?).
  - by apply GetGpuPath_override.
Qed.

(** C10.  With the empty string for [envPath], [Paths] and [GetGpuPath] make
    no call that reads or writes the environment, and leave it as it was; a
    call reads or writes the environment exactly when [envPath] is not
    empty. *)
Theorem no_override_no_environment_call
    (gpuDir : string) (gpu : GpuCfg) (s : state) :
  (Forall (λ e, isEnvCall e = false) (calls (gpu.Paths gpuDir "" gpu s)) ∧
   st_env (final (gpu.Paths gpuDir "" gpu s)) = st_env s) ∧
  (Forall (λ e, isEnvCall e = false) (calls (gpuutils.GetGpuPath gpuDir "" gpu s)) ∧
   st_env (final (gpuutils.GetGpuPath gpuDir "" gpu s)) = st_env s) ∧
  (∀ envPath,
     Exists (λ e, isEnvCall e = true) (calls (gpu.Paths gpuDir envPath gpu s))
       ↔ envPath ≠ "") ∧
  (∀ envPath,
     Exists (λ e, isEnvCall e = true)
            (calls (gpuutils.GetGpuPath gpuDir envPath gpu s))
       ↔ envPath ≠ "").
Proof.
  assert (∀ l, Forall (λ e, isEnvCall e = false) l →
               ¬ Exists (λ e, isEnvCall e = true) l) as Hnone.
  { intros l Hall Hsome. apply Exists_exists in Hsome as (e & Hin & He).
    rewrite Forall_forall in Hall. specialize (Hall _ Hin). congruence. }
  destruct (Paths_plain_run gpuDir gpu s) as (_ & HenvP & HquietP).
  destruct (GetGpuPath_plain_run gpuDir gpu s) as (_ & HenvG & HquietG).
  repeat split; try done.
  - intros Hsome ->. exact (Hnone _ HquietP Hsome).
  - intros Hne. rewrite Paths_override by done. project. by left.
  - intros Hsome ->. exact (Hnone _ HquietG Hsome).
  - intros Hne. rewrite GetGpuPath_override by done. project. by left.
Qed.
End SearchPath.

(** ** Runs on the lab host *)

(** No helper tool on [PATH]: the list file gives the candidate names; the
    32-bit build is passed over, the 64-bit build under the same name is
    added, and the binary that is not installed is skipped. *)
Example lab_list_file :
  value (@gpu.Paths lab "/etc/singularity" "" labCfg (labState "/usr/bin:/sbin")) =
    (["/usr/lib64/libcuda.so.1"; "/usr/lib/libfoo.so.1"],
     ["/usr/bin/nvidia-smi"], None).
Proof. vm_compute. reflexivity. Qed.

(** The helper tool is found through the override. *)
Example lab_helper_tool :
  value (@gpu.Paths lab "/etc/singularity" "/opt/nvidia/bin:/sbin" labCfg
                    (labState "/usr/bin:/sbin")) =
    (["/usr/lib64/libcuda.so.1"], ["/usr/bin/nvidia-smi"], None) ∧
  calls (@gpu.Paths lab "/etc/singularity" "/opt/nvidia/bin:/sbin" labCfg
                    (labState "/usr/bin:/sbin")) =
    [EvGetenv "PATH"; EvSetenv "PATH" "/opt/nvidia/bin:/sbin";
     EvLookPath "nvidia-container-cli";
     EvCommand "/opt/nvidia/bin/nvidia-container-cli"
               ["list"; "--binaries"; "--libraries"];
     EvCommand "ldconfig" ["-p"];
     EvElfOpen "/proc/self/exe"; EvClose "/proc/self/exe";
     EvLookPath "/usr/bin/nvidia-smi";
     EvElfOpen "/usr/lib32/libcuda.so.1"; EvClose "/usr/lib32/libcuda.so.1";
     EvElfOpen "/usr/lib64/libcuda.so.1"; EvClose "/usr/lib64/libcuda.so.1";
     EvSetenv "PATH" "/usr/bin:/sbin"].
Proof. split; vm_compute; reflexivity. Qed.

(** [ldconfig] is not on the overriding [PATH]: the call fails, and [PATH]
    is restored. *)
Example lab_no_ldconfig :
  value (@gpuutils.GetGpuPath lab "/etc/singularity" "/usr/bin" labCfg
                              (labState "/usr/bin:/sbin")) =
    ([], [], Some (HostError (EvCommand "ldconfig" ["-p"]))) ∧
  st_env (final (@gpuutils.GetGpuPath lab "/etc/singularity" "/usr/bin" labCfg
                                      (labState "/usr/bin:/sbin"))) =
    {[ "PATH" := "/usr/bin:/sbin" ]}.
Proof. split; vm_compute; reflexivity. Qed.

(** C6 on the lab host. *)
Lemma PATH_override_is_scoped_lab :
  "/opt/nvidia/bin:/sbin" ≠ "" ∧
  scopedOverride (λ envPath, @gpu.Paths lab "/etc/singularity" envPath labCfg)
                 "/opt/nvidia/bin:/sbin" (labState "/usr/bin:/sbin") ∧
  scopedOverride (λ envPath, @gpuutils.GetGpuPath lab "/etc/singularity" envPath labCfg)
                 "/opt/nvidia/bin:/sbin" (labState "/usr/bin:/sbin").
Proof.
  split; [discriminate|].
  apply (@PATH_override_is_scoped lab "/etc/singularity" "/opt/nvidia/bin:/sbin"
           labCfg (labState "/usr/bin:/sbin")).
  discriminate.
Defined.

(** C5 on the lab host: with [/usr/bin] alone for [PATH], [ldconfig] is not
    found and both functions return an error and no path. *)
Lemma fatal_and_skipped_failures_lab :
  (∃ err, value (@gpu.Paths lab "/etc/singularity" "/usr/bin" labCfg
                            (labState "/usr/bin:/sbin")) = ([], [], Some err)) ∧
  (∃ err, value (@gpuutils.GetGpuPath lab "/etc/singularity" "/usr/bin" labCfg
                                      (labState "/usr/bin:/sbin")) =
            ([], [], Some err)).
Proof.
  apply (@fatal_and_skipped_failures lab "/etc/singularity" "/usr/bin" labCfg
           (labState "/usr/bin:/sbin")).
  left. reflexivity.
Defined.

(** * More of the code *)

(** ** Prefixes and the bare name of a library *)

Lemma append_cons (c : Ascii.ascii) (s1 s2 : string) :
  String c s1 +:+ s2 = String c (s1 +:+ s2).
Proof. done. Qed.

Lemma append_assoc (s1 s2 s3 : string) : (s1 +:+ s2) +:+ s3 = s1 +:+ (s2 +:+ s3).
Proof. induction s1 as [|c s1 IH]; [done | by rewrite !append_cons, IH]. Qed.

Lemma append_empty_r (s : string) : s +:+ "" = s.
Proof. induction s as [|c s IH]; [done | by rewrite append_cons, IH]. Qed.

Lemma HasPrefix_so_early (c : Ascii.ascii) (stem : string) :
  HasPrefix (String c (stem +:+ ".so")) ".so" =
  HasPrefix (String c (stem +:+ ".s")) ".so".
Proof. by destruct stem as [|d [|e stem]]. Qed.

Lemma HasPrefix_trans (s mid pre : string) :
  HasPrefix s mid = true → HasPrefix mid pre = true → HasPrefix s pre = true.
Proof.
  rewrite !HasPrefix_spec. intros [r1 ->] [r2 ->].
  exists (r2 +:+ r1). apply append_assoc.
Qed.

Lemma HasPrefix_append (s more pre : string) :
  HasPrefix s pre = true → HasPrefix (s +:+ more) pre = true.
Proof.
  rewrite !HasPrefix_spec. intros [r ->]. exists (r +:+ more). apply append_assoc.
Qed.

Lemma Contains_HasPrefix (s mid substr : string) :
  HasPrefix s mid = true → Contains mid substr = true → Contains s substr = true.
Proof.
  rewrite HasPrefix_spec, !Contains_spec. intros [r ->] (before & after & ->).
  exists before, (after +:+ r). by rewrite !append_assoc.
Qed.

Lemma SplitAfter0_prefix (s sep : string) :
  ∃ rest, s = SplitAfter0 s sep +:+ rest.
Proof.
  induction s as [|c s IH]; simpl.
  - destruct (HasPrefix "" sep) eqn:Hpre; [by apply HasPrefix_spec | by exists ""].
  - destruct (HasPrefix (String c s) sep) eqn:Hpre; [by apply HasPrefix_spec|].
    destruct IH as [rest Hrest]. exists rest. by rewrite append_cons, <- Hrest.
Qed.

Lemma SplitAfter0_absent (s sep : string) :
  Contains s sep = false → SplitAfter0 s sep = s.
Proof.
  induction s as [|c s IH]; simpl; intros [Hpre Hrest]%orb_false_iff;
    rewrite Hpre; [done | by rewrite IH].
Qed.

Lemma SplitAfter0_first (s : string) :
  Contains s ".so" = true →
  ∃ stem, SplitAfter0 s ".so" = stem +:+ ".so" ∧
          Contains (stem +:+ ".s") ".so" = false.
Proof.
  induction s as [|c s IH]; [discriminate|].
  change (Contains (String c s) ".so")
    with (HasPrefix (String c s) ".so" || Contains s ".so").
  change (SplitAfter0 (String c s) ".so")
    with (if HasPrefix (String c s) ".so" then ".so"
          else String c (SplitAfter0 s ".so")).
  destruct (HasPrefix (String c s) ".so") eqn:Hpre; [by exists ""|].
  simpl. intros Hin. destruct (IH Hin) as (stem & Hstem & Hfirst).
  exists (String c stem). split; [simpl; by rewrite Hstem|].
  change (Contains (String c stem +:+ ".s") ".so")
    with (HasPrefix (String c (stem +:+ ".s")) ".so" || Contains (stem +:+ ".s") ".so").
  rewrite Hfirst, orb_false_r.
  destruct (HasPrefix (String c (stem +:+ ".s")) ".so") eqn:Hearly; [|done].
  destruct (SplitAfter0_prefix s ".so") as [rest Hrest].
  rewrite Hstem in Hrest. rewrite <- Hpre. symmetry.
  apply (HasPrefix_append _ ("o" +:+ rest)) in Hearly.
  rewrite Hrest. simpl in Hearly |- *.
  by rewrite !append_assoc in Hearly |- *.
Qed.

(** X1.  The second candidate a library line gives, [bareLib], is the
    start of the first, [lib], up to the end of the first [".so"] in it, and
    [lib] itself when there is none.  It contains the marker exactly when
    [lib] does, so the resolution treats the two alike, and every name of
    the cache that starts with [lib] starts with [bareLib]. *)
Theorem bareLib_is_the_stem (lib : string) :
  let bareLib := SplitAfter0 lib ".so" in
  HasPrefix lib bareLib = true ∧
  isLibrary bareLib = isLibrary lib ∧
  (if isLibrary lib
   then ∃ stem, bareLib = stem +:+ ".so" ∧ Contains (stem +:+ ".s") ".so" = false
   else bareLib = lib) ∧
  SplitAfter0 bareLib ".so" = bareLib ∧
  (∀ libName, HasPrefix libName lib = true → HasPrefix libName bareLib = true).
Proof.
  intros bareLib. unfold isLibrary.
  assert (HasPrefix lib bareLib = true) as Hpre.
  { apply HasPrefix_spec. apply SplitAfter0_prefix. }
  destruct (Contains lib ".so") eqn:Hso.
  - destruct (SplitAfter0_first lib Hso) as (stem & Hstem & Hfirst). fold bareLib in Hstem.
    assert (Contains bareLib ".so" = true) as Hbare.
    { apply Contains_spec. exists stem, "". by rewrite append_empty_r. }
    repeat split; [done | done | by exists stem | | ].
    + rewrite Hstem. clear -Hfirst. induction stem as [|c stem IH]; [done|].
      change (Contains (String c stem +:+ ".s") ".so")
        with (HasPrefix (String c (stem +:+ ".s")) ".so" ||
              Contains (stem +:+ ".s") ".so") in Hfirst.
      apply orb_false_iff in Hfirst as [Hhead Htail].
      change (SplitAfter0 (String c stem +:+ ".so") ".so")
        with (if HasPrefix (String c (stem +:+ ".so")) ".so" then ".so"
              else String c (SplitAfter0 (stem +:+ ".so") ".so")).
      rewrite HasPrefix_so_early, Hhead. simpl. by rewrite IH.
    + intros libName Hname. by eapply HasPrefix_trans.
  - subst bareLib. rewrite !(SplitAfter0_absent lib) by done.
    by rewrite Hso, HasPrefix_refl.
Qed.

(** ** The two providers of candidate names *)

Section Parsers.
Context `{Host}.

Lemma foldl_cliLine (lines acc : list string) :
  foldl gpu.cliLine acc lines = acc ++ concat (lineCandidates <$> lines).
Proof.
  revert acc. induction lines as [|text lines IH]; intros acc; simpl.
  - by rewrite app_nil_r.
  - rewrite IH. unfold gpu.cliLine, lineCandidates. cbv zeta.
    case_decide; [done|]. destruct (Contains _ ".so"); by rewrite <- !app_assoc.
Qed.

Lemma foldl_cliLine_utils (lines acc : list string) :
  foldl gpuutils.cliLine acc lines = acc ++ concat (lineCandidates <$> lines).
Proof.
  revert acc. induction lines as [|text lines IH]; intros acc; simpl.
  - by rewrite app_nil_r.
  - rewrite IH. unfold gpuutils.cliLine, lineCandidates. cbv zeta.
    destruct (decide (TrimSpace text = "")) as [Heq|Hne].
    + by rewrite decide_False by (by intros Hn).
    + rewrite decide_True by done.
      destruct (Contains _ ".so"); by rewrite <- !app_assoc.
Qed.

(** X2.  What the three readers of the helper tool's output return.  The
    tool is run only when the lookup finds it, from the path the lookup
    returned; a lookup or a run that fails gives an error and no list.
    Otherwise the list is made line by line, in the order of the output:
    nothing for a line that is blank once trimmed, the base name followed by
    its bare name for a line with [".so"] in it, the trimmed line itself for
    any other.  The calls leave the state as it was. *)
Theorem helper_tool_candidates (s : state) :
  let reads (cli : M (list string + error)) (tool : string) (args : list string) :=
    match lookPath (st_env s) tool with
    | None =>
        (∃ err, value (cli s) = inr err) ∧ calls (cli s) = [EvLookPath tool]
    | Some path =>
        calls (cli s) = [EvLookPath tool; EvCommand path args] ∧
        match output (st_env s) path args with
        | None => ∃ err, value (cli s) = inr err
        | Some out =>
            value (cli s) = inl (concat (lineCandidates <$> scanLines out))
        end
    end ∧ final (cli s) = s in
  reads gpu.gpuContainerCli "nvidia-container-cli"
        ["list"; "--binaries"; "--libraries"] ∧
  reads gpuutils.gpuContainerCli "nvidia-container-cli"
        ["list"; "--binaries"; "--ipcs"; "--libraries"] ∧
  reads rocmutils.rocmContainerCli "rocm-container-cli"
        ["list"; "--binaries"; "--ipcs"; "--libraries"].
Proof.
  cbv zeta. repeat split.
  - unfold gpu.gpuContainerCli, mbind, M_bind, LookPath, Output; simpl.
    destruct (lookPath _ _) as [path|]; simpl; [|split; [by eexists | done]].
    destruct (output _ _ _) as [out|]; simpl; project.
    + split; [done|]. by rewrite foldl_cliLine.
    + split; [done | by eexists].
  - unfold gpu.gpuContainerCli, mbind, M_bind, LookPath, Output; simpl.
    destruct (lookPath _ _) as [path|]; simpl; [|done].
    by destruct (output _ _ _).
  - unfold gpuutils.gpuContainerCli, mbind, M_bind, LookPath, Output; simpl.
    destruct (lookPath _ _) as [path|]; simpl; [|split; [by eexists | done]].
    destruct (output _ _ _) as [out|]; simpl; project.
    + split; [done|]. by rewrite foldl_cliLine_utils.
    + split; [done | by eexists].
  - unfold gpuutils.gpuContainerCli, mbind, M_bind, LookPath, Output; simpl.
    destruct (lookPath _ _) as [path|]; simpl; [|done].
    by destruct (output _ _ _).
  - unfold rocmutils.rocmContainerCli, mbind, M_bind, LookPath, Output; simpl.
    destruct (lookPath _ _) as [path|]; simpl; [|split; [by eexists | done]].
    destruct (output _ _ _) as [out|]; simpl; project.
    + split; [done|]. by rewrite foldl_cliLine_utils.
    + split; [done | by eexists].
  - unfold rocmutils.rocmContainerCli, mbind, M_bind, LookPath, Output; simpl.
    destruct (lookPath _ _) as [path|]; simpl; [|done].
    by destruct (output _ _ _).
Qed.

Lemma kept_spec (line : string) :
  kept line = true ↔ line ≠ "" ∧ HasPrefix line "#" = false.
Proof.
  rewrite <- firstByteIs_HasPrefix, andb_true_iff, negb_true_iff, bool_decide_eq_true.
  tauto.
Qed.

(** X3.  What the readers of a list file return.  When the file
    opens, the candidate names are the lines of the file, trimmed, that are
    not empty and do not start with [#], in the order of the file and with
    their repetitions; the file is closed before the return.  When it does not
    open, the result is an error, and nothing is closed.  The test
    [line[0] != '#'] of one reader and the test [!strings.HasPrefix(line, "#")]
    of the others keep the same lines. *)
Theorem list_file_candidates (dir filename : string) (s : state) :
  let reads (list : M (list string + error)) (path : string) :=
    match openFile path with
    | Some text =>
        ∃ names,
          list s = (inl names, s, [EvOpen path; EvClose path]) ∧
          names = filter (λ line, kept line) (TrimSpace <$> scanLines text) ∧
          Forall (λ name, name ≠ "" ∧ HasPrefix name "#" = false) names ∧
          (∀ text', text' ∈ scanLines text →
             TrimSpace text' ≠ "" → HasPrefix (TrimSpace text') "#" = false →
             TrimSpace text' ∈ names)
    | None => ∃ err, list s = (inr err, s, [EvOpen path])
    end in
  reads (gpu.gpuliblist dir filename) (Join dir filename) ∧
  reads (gpuutils.gpuLiblist dir filename) (dir +:+ "/" +:+ filename) ∧
  reads (rocmutils.rocmLiblist dir) (dir +:+ "/rocmliblist.conf") ∧
  reads (rocmstub.rocmLiblist dir) (dir +:+ "/rocmliblist.conf").
Proof.
  assert (∀ text,
            Forall (λ name, name ≠ "" ∧ HasPrefix name "#" = false)
                   (filter (λ line, kept line) (TrimSpace <$> scanLines text)) ∧
            (∀ text', text' ∈ scanLines text →
               TrimSpace text' ≠ "" → HasPrefix (TrimSpace text') "#" = false →
               TrimSpace text' ∈
                 filter (λ line, kept line) (TrimSpace <$> scanLines text)))
    as Hkept.
  { intros text. split.
    - apply Forall_forall. intros name [Hk _]%list_elem_of_filter.
      apply kept_spec. by apply Is_true_true.
    - intros text' Hin Hne Hhash. apply list_elem_of_filter. split.
      + apply Is_true_true, kept_spec. done.
      + by apply list_elem_of_fmap_2. }
  assert (∀ abspath, rocmutils.rocmLiblist abspath s =
            match openFile (abspath +:+ "/rocmliblist.conf") with
            | Some text =>
                (inl (filter (λ line, kept line) (TrimSpace <$> scanLines text)), s,
                 [EvOpen (abspath +:+ "/rocmliblist.conf");
                  EvClose (abspath +:+ "/rocmliblist.conf")])
            | None =>
                (inr (Errorf "" (HostError (EvOpen (abspath +:+ "/rocmliblist.conf")))),
                 s, [EvOpen (abspath +:+ "/rocmliblist.conf")])
            end) as Hrocm.
  { intros abspath. unfold rocmutils.rocmLiblist, mbind, M_bind, Open, Close; simpl.
    destruct (openFile _); simpl; [|done]. by rewrite foldl_listLine_utils. }
  cbv zeta. repeat split.
  - rewrite gpuliblist_run. cbv zeta. destruct (openFile _) as [text|]; [|by eexists].
    eexists. split; [done|]. split; [done|]. apply Hkept.
  - rewrite gpuLiblist_run. cbv zeta. destruct (openFile _) as [text|]; [|by eexists].
    eexists. split; [done|]. split; [done|]. apply Hkept.
  - rewrite Hrocm. destruct (openFile _) as [text|]; [|by eexists].
    eexists. split; [done|]. split; [done|]. apply Hkept.
  - unfold rocmstub.rocmLiblist. rewrite Hrocm.
    destruct (openFile _) as [text|]; [|by eexists].
    eexists. split; [done|]. split; [done|]. apply Hkept.
Qed.
End Parsers.

(** ** What the loop finds *)

Section Found.
Context `{Host}.
Implicit Types (machine : Machine) (ldCache : gmap string string).
Implicit Types (a : found) (s : state) (gpuFile libPath libName : string).

Lemma scan_bins machine gpuFile a entries s :
  binaries (value (forEach (matchEntry machine gpuFile) a entries s)) = binaries a ∧
  bins (value (forEach (matchEntry machine gpuFile) a entries s)) = bins a.
Proof.
  apply (forEach_keeps _ (λ a', binaries a' = binaries a ∧ bins a' = bins a)); [|done].
  intros a' [libPath libName] s' _ Ha'. rewrite matchEntry_value.
  by destruct (_ && _).
Qed.

Lemma scan_covers machine gpuFile entries a s libPath libName :
  (libPath, libName) ∈ entries → HasPrefix libName gpuFile = true →
  elfMachine libPath = Some machine →
  libName ∈ libs (value (forEach (matchEntry machine gpuFile) a entries s)).
Proof.
  intros Hin Hpre Helf. revert a s.
  induction entries as [|entry entries IH]; intros a s; [by apply elem_of_nil in Hin|].
  simpl. run. apply elem_of_cons in Hin as [<- | Hin]; [|by apply IH].
  match goal with
  | |- context [forEach _ ?a1 entries ?s1] =>
      destruct (scan_extends machine gpuFile a1 entries s1) as (_ & _ & Hlibs & _)
  end.
  apply Hlibs. rewrite matchEntry_value, Hpre, Helf.
  rewrite (bool_decide_eq_true_2 (Some machine = Some machine)) by done.
  case_bool_decide as Hnew; simpl; [|done].
  by apply elem_of_union_l, elem_of_singleton.
Qed.

Lemma resolveFile_covers machine ldCache a gpuFile s :
  Contains gpuFile ".so" = true →
  covered machine ldCache gpuFile (value (resolveFile machine ldCache a gpuFile s)).
Proof.
  intros Hso libPath libName Hcache Hpre Helf.
  destruct (resolveFile_library machine ldCache a gpuFile s Hso) as (-> & _).
  apply scan_covers with libPath; try done.
  rewrite (rangeOrder_perm (st_range s) ldCache). by apply elem_of_map_to_list.
Qed.

Lemma covered_extends machine ldCache gpuFile a a' :
  extends a a' → covered machine ldCache gpuFile a →
  covered machine ldCache gpuFile a'.
Proof.
  intros (_ & _ & Hlibs & _) Ha libPath libName Hcache Hpre Helf.
  apply Hlibs. by eapply Ha.
Qed.

Lemma resolveFrom_covers machine ldCache a gpuFiles gpuFile s :
  gpuFile ∈ gpuFiles → Contains gpuFile ".so" = true →
  covered machine ldCache gpuFile (value (resolveFrom machine ldCache a gpuFiles s)).
Proof.
  intros (l1 & l2 & ->)%list_elem_of_split Hso.
  unfold resolveFrom. rewrite forEach_app. simpl. run.
  eapply covered_extends; [apply resolveFrom_extends|].
  by apply resolveFile_covers.
Qed.

Lemma covered_noop machine ldCache a gpuFile gpuFile' s :
  covered machine ldCache gpuFile a →
  HasPrefix gpuFile' gpuFile = true → Contains gpuFile' ".so" = true →
  value (resolveFile machine ldCache a gpuFile' s) = a.
Proof.
  intros Ha Hmore Hso.
  destruct (resolveFile_library machine ldCache a gpuFile' s Hso) as (-> & _).
  apply (forEach_keeps _ (λ a', a' = a)); [|done].
  intros a' [libPath libName] s' Hin ->. rewrite matchEntry_value.
  destruct (HasPrefix libName gpuFile') eqn:Hpre; simpl; [|done].
  case_bool_decide as Hnew; simpl; [|done].
  case_bool_decide as Helf; simpl; [|done].
  exfalso. apply Hnew. apply (Ha libPath); [|by eapply HasPrefix_trans|done].
  rewrite (rangeOrder_perm (st_range s) ldCache) in Hin.
  by apply elem_of_map_to_list in Hin.
Qed.

Lemma resolveFrom_binary_found machine ldCache a gpuFiles gpuFile binary s :
  gpuFile ∈ gpuFiles → Contains gpuFile ".so" = false →
  lookPath (st_env s) gpuFile = Some binary →
  binary ∈ bins (value (resolveFrom machine ldCache a gpuFiles s)).
Proof.
  intros (l1 & l2 & ->)%list_elem_of_split Hso Hfound.
  unfold resolveFrom. rewrite forEach_app. simpl. run.
  match goal with
  | |- context [forEach _ ?a2 l2 ?s2] =>
      destruct (resolveFrom_extends machine ldCache a2 l2 s2) as (_ & _ & _ & Hbins)
  end.
  apply Hbins. rewrite resolveFile_binary by done. project.
  fold (resolveFrom machine ldCache a l1 s). rewrite resolveFrom_env, Hfound.
  case_decide; [done|]. by apply elem_of_union_l, elem_of_singleton.
Qed.

(** X4.  No library is missed: when an entry of the cache has a name that
    starts with one of the candidate names that contain the marker, and its
    file has the reference architecture, a path recorded under that very name,
    with a file of the reference architecture, is in the library list. *)
Theorem matching_library_is_found
    machine ldCache (gpuFiles : list string) s gpuFile libPath libName :
  gpuFile ∈ gpuFiles → Contains gpuFile ".so" = true →
  ldCache !! libPath = Some libName → HasPrefix libName gpuFile = true →
  elfMachine libPath = Some machine →
  ∃ libPath',
    libPath' ∈ libraries (value (resolve machine ldCache gpuFiles s)) ∧
    ldCache !! libPath' = Some libName ∧
    elfMachine libPath' = Some machine.
Proof.
  intros Hin Hso Hcache Hpre Helf.
  pose proof (resolveFrom_covers machine ldCache nothing gpuFiles gpuFile s Hin Hso
                libPath libName Hcache Hpre Helf) as Hseen.
  destruct (resolve_consistent machine ldCache gpuFiles s) as [Horigin _ Hlibs _ _].
  destruct (Hlibs _ Hseen) as (libPath' & Hin' & Hcache').
  exists libPath'. repeat split; try done.
  destruct (Horigin _ Hin') as (? & ? & ? & ? & ? & ? & ? & ?). done.
Qed.

(** X5.  A candidate name that comes again adds nothing: once the loop has
    gone through a candidate list, the turn for a name of that list, in any
    state with the same environment, leaves all four variables as they are.
    The same holds of a name that starts with a library name of the list:
    what [libfoo.so] has matched, [libfoo.so.1] cannot add to. *)
Theorem repeated_candidate_adds_nothing
    machine ldCache (gpuFiles : list string) s s' gpuFile gpuFile' :
  gpuFile ∈ gpuFiles →
  gpuFile' = gpuFile ∨
    (Contains gpuFile ".so" = true ∧ HasPrefix gpuFile' gpuFile = true) →
  st_env s' = st_env s →
  value (resolveFile machine ldCache
           (value (resolve machine ldCache gpuFiles s)) gpuFile' s') =
    value (resolve machine ldCache gpuFiles s).
Proof.
  intros Hin Hsame Henv.
  assert (Contains gpuFile ".so" = true →
          HasPrefix gpuFile' gpuFile = true →
          value (resolveFile machine ldCache
                   (value (resolve machine ldCache gpuFiles s)) gpuFile' s') =
            value (resolve machine ldCache gpuFiles s)) as Hlibrary.
  { intros Hso Hmore. eapply covered_noop; [by apply resolveFrom_covers|done|].
    eapply Contains_HasPrefix; done. }
  destruct Hsame as [-> | [Hso Hmore]]; [|by apply Hlibrary].
  destruct (Contains gpuFile ".so") eqn:Hso.
  - apply Hlibrary; [done | apply HasPrefix_refl].
  - rewrite resolveFile_binary by done. project. rewrite Henv.
    destruct (lookPath (st_env s) gpuFile) as [binary|] eqn:Hfound; [|done].
    rewrite decide_True; [done|]. by eapply resolveFrom_binary_found.
Qed.
End Found.

(** ** The two lists, one by one *)

Lemma dedup_snoc (l : list string) (x : string) :
  dedup (l ++ [x]) = if decide (x ∈ l) then dedup l else dedup l ++ [x].
Proof.
  induction l as [|y l IH].
  - case_decide as Hin; [by apply elem_of_nil in Hin | done].
  - change (dedup ((y :: l) ++ [x])) with (y :: filter (λ z, z ≠ y) (dedup (l ++ [x]))).
    change (dedup (y :: l)) with (y :: filter (λ z, z ≠ y) (dedup l)).
    rewrite IH. destruct (decide (x ∈ l)) as [Hin|Hnot].
    + case_decide as Hin'; [done|]. exfalso. apply Hin'. by right.
    + rewrite filter_app, filter_cons, filter_nil.
      destruct (decide (x = y)) as [->|Hne].
      * rewrite decide_False by (by intros Hn). rewrite app_nil_r.
        case_decide as Hin'; [done|]. exfalso. apply Hin'. by left.
      * rewrite decide_True by done.
        case_decide as Hin'; [|done].
        by apply elem_of_cons in Hin' as [?|?].
Qed.

Lemma elem_of_dedup (l : list string) (x : string) : x ∈ dedup l ↔ x ∈ l.
Proof.
  induction l as [|y l IH]; simpl; [done|].
  rewrite !elem_of_cons, list_elem_of_filter, IH.
  destruct (decide (x = y)) as [->|Hne].
  - split; intros _; by left.
  - split.
    + intros [Heq | [_ Hin]]; [by left | by right].
    + intros [Heq | Hin]; [by left | by right].
Qed.

Lemma NoDup_dedup (l : list string) : NoDup (dedup l).
Proof.
  induction l as [|y l IH]; simpl; constructor.
  - rewrite list_elem_of_filter. by intros [Hne _].
  - by apply NoDup_filter.
Qed.

Lemma filter_none {A} (P : A → Prop) `{!∀ x, Decision (P x)} (l : list A) :
  Forall (λ x, ¬ P x) l → filter P l = [].
Proof.
  induction 1 as [|x l Hx Hl IH]; [done|]. by rewrite filter_cons_False.
Qed.

Lemma forEach_final {A B} (f : A → B → M A) (l : list B) :
  (∀ a x s, final (f a x s) = s) → ∀ a s, final (forEach f a l s) = s.
Proof.
  intros Hstep. induction l as [|x l IH]; intros a s; simpl; [done|].
  run. by rewrite IH, Hstep.
Qed.

Lemma forEach_calls_in {A B} (f : A → B → M A) (Q : event → Prop) (l : list B) :
  (∀ a x s, x ∈ l → Forall Q (calls (f a x s))) →
  ∀ a s, Forall Q (calls (forEach f a l s)).
Proof.
  induction l as [|x l IH]; intros Hstep a s; simpl; [constructor|].
  run. apply Forall_app. split; [apply Hstep; by left|].
  apply IH. intros a' y s' Hy. apply Hstep. by right.
Qed.

Section Lists.
Context `{Host}.
Implicit Types (machine : Machine) (ldCache : gmap string string).
Implicit Types (a : found) (s : state) (gpuFile libPath libName : string).

Lemma resolveFile_final machine ldCache a gpuFile s :
  final (resolveFile machine ldCache a gpuFile s) =
    if Contains gpuFile ".so" then State (st_env s) (S (st_range s)) else s.
Proof.
  destruct (Contains gpuFile ".so") eqn:Hso.
  - destruct (resolveFile_library machine ldCache a gpuFile s Hso) as (_ & -> & _).
    apply forEach_final. intros. apply matchEntry_final.
  - by rewrite resolveFile_binary.
Qed.

Lemma resolveFile_bins machine ldCache a gpuFile s :
  Contains gpuFile ".so" = true →
  binaries (value (resolveFile machine ldCache a gpuFile s)) = binaries a ∧
  bins (value (resolveFile machine ldCache a gpuFile s)) = bins a.
Proof.
  intros Hso.
  destruct (resolveFile_library machine ldCache a gpuFile s Hso) as (-> & _).
  apply scan_bins.
Qed.

Lemma resolveFrom_binaries machine ldCache gpuFiles a (paths : list string) s :
  (∀ binary, binary ∈ bins a ↔ binary ∈ paths) →
  binaries a = dedup paths →
  binaries (value (resolveFrom machine ldCache a gpuFiles s)) =
    dedup (paths ++ omap (lookPath (st_env s))
                         (filter (λ gpuFile, isLibrary gpuFile = false) gpuFiles)).
Proof.
  unfold resolveFrom, isLibrary. revert a paths s.
  induction gpuFiles as [|gpuFile gpuFiles IH]; intros a paths s Hbins Hbinaries.
  { simpl. by rewrite app_nil_r. }
  simpl. run. rewrite filter_cons.
  destruct (Contains gpuFile ".so") eqn:Hso.
  - rewrite decide_False by done.
    destruct (resolveFile_bins machine ldCache a gpuFile s Hso) as [Hsame1 Hsame2].
    rewrite (IH _ paths), resolveFile_env; [done | by rewrite Hsame2 | by rewrite Hsame1].
  - rewrite decide_True by done. simpl.
    rewrite resolveFile_binary by done. project.
    destruct (lookPath (st_env s) gpuFile) as [binary|]; simpl; [|by apply IH].
    case_decide as Hseen; rewrite (cons_middle binary paths), (app_assoc paths).
    + apply IH.
      * intros b. rewrite Hbins, elem_of_app, list_elem_of_singleton.
        split; [auto|]. intros [?| ->]; [done | by apply Hbins].
      * rewrite dedup_snoc, decide_True; [done | by apply Hbins].
    + apply IH; simpl.
      * intros b. rewrite elem_of_union, elem_of_singleton, Hbins, elem_of_app,
          list_elem_of_singleton. tauto.
      * rewrite dedup_snoc, decide_False, Hbinaries; [done|].
        intros Hin. by apply Hseen, Hbins.
Qed.

Lemma resolve_binaries machine ldCache gpuFiles s :
  binaries (value (resolve machine ldCache gpuFiles s)) =
    dedup (omap (lookPath (st_env s))
                (filter (λ gpuFile, isLibrary gpuFile = false) gpuFiles)).
Proof.
  unfold resolve. rewrite (resolveFrom_binaries machine ldCache gpuFiles nothing []);
    [done| |done].
  intros binary. simpl. split; intros Hin.
  - by apply not_elem_of_empty in Hin.
  - by apply elem_of_nil in Hin.
Qed.

Lemma resolveFrom_lookups machine ldCache gpuFiles a s :
  filter (λ e, isLookPath e) (calls (resolveFrom machine ldCache a gpuFiles s)) =
    EvLookPath <$> filter (λ gpuFile, isLibrary gpuFile = false) gpuFiles.
Proof.
  unfold resolveFrom, isLibrary. revert a s.
  induction gpuFiles as [|gpuFile gpuFiles IH]; intros a s; [done|].
  simpl. run. rewrite filter_app, IH, filter_cons.
  destruct (Contains gpuFile ".so") eqn:Hso.
  - rewrite decide_False by done.
    destruct (resolveFile_library machine ldCache a gpuFile s Hso) as (_ & _ & ->).
    rewrite filter_none; [done|].
    eapply Forall_impl; [apply scan_calls|].
    intros e [He | [path ->]]; [destruct e; try done|]; by intros Hn.
  - rewrite decide_True by done. by rewrite resolveFile_binary.
Qed.

(** X6.  The binary list is made of the paths the lookup returns for the
    candidate names without the marker, in the order of the candidates, each
    path at the place of its first occurrence; the names that are not found
    leave no trace.  One lookup is made for each of these names, in their
    order, and none for a name with the marker.  The list does not depend
    on the cache or on the reference architecture. *)
Theorem binaries_in_candidate_order machine ldCache (gpuFiles : list string) s :
  let names := filter (λ gpuFile, isLibrary gpuFile = false) gpuFiles in
  binaries (value (resolve machine ldCache gpuFiles s)) =
    dedup (omap (lookPath (st_env s)) names) ∧
  filter (λ e, isLookPath e) (calls (resolve machine ldCache gpuFiles s)) =
    EvLookPath <$> names.
Proof.
  split; [apply resolve_binaries | apply resolveFrom_lookups].
Qed.

Lemma scan_libraries machine gpuFile entries a a' s s' :
  libs a = libs a' → libraries a = libraries a' →
  libs (value (forEach (matchEntry machine gpuFile) a entries s)) =
    libs (value (forEach (matchEntry machine gpuFile) a' entries s')) ∧
  libraries (value (forEach (matchEntry machine gpuFile) a entries s)) =
    libraries (value (forEach (matchEntry machine gpuFile) a' entries s')).
Proof.
  revert a a' s s'.
  induction entries as [|[libPath libName] entries IH]; intros a a' s s' Hlibs Hlibraries;
    [done|].
  simpl. run. apply IH; rewrite !matchEntry_value, Hlibs;
    destruct (_ && _); simpl; congruence.
Qed.

Lemma resolveFrom_libraries machine ldCache gpuFiles a a' env env' (n : nat) :
  libs a = libs a' → libraries a = libraries a' →
  libraries (value (resolveFrom machine ldCache a gpuFiles (State env n))) =
    libraries (value (resolveFrom machine ldCache a'
                        (filter (λ gpuFile, isLibrary gpuFile = true) gpuFiles)
                        (State env' n))).
Proof.
  unfold resolveFrom, isLibrary. revert a a' n.
  induction gpuFiles as [|gpuFile gpuFiles IH]; intros a a' n Hlibs Hlibraries;
    [done|].
  simpl. run. rewrite filter_cons, !resolveFile_final.
  destruct (Contains gpuFile ".so") eqn:Hso.
  - rewrite decide_True by done. simpl. run. rewrite resolveFile_final, Hso. simpl.
    destruct (resolveFile_library machine ldCache a gpuFile (State env n) Hso)
      as (-> & _).
    destruct (resolveFile_library machine ldCache a' gpuFile (State env' n) Hso)
      as (-> & _).
    simpl.
    destruct (scan_libraries machine gpuFile (rangeOrder n ldCache) a a'
                (State env (S n)) (State env' (S n)) Hlibs Hlibraries) as [Hl1 Hl2].
    by apply IH.
  - case_decide as Hd; [congruence|]. apply IH.
    + rewrite resolveFile_binary by done. project. simpl.
      destruct (lookPath env gpuFile); [|done]. by case_decide.
    + rewrite resolveFile_binary by done. project. simpl.
      destruct (lookPath env gpuFile); [|done]. by case_decide.
Qed.

(** X7.  The two lists are found apart from each other.  The library list
    is the one the candidate names with the marker give alone, whatever the
    environment: the names without the marker, and what the lookups return
    for them, change nothing in it.  The binary list is the one the names
    without the marker give alone, whatever the cache, the reference
    architecture and the order in which the cache is gone through. *)
Theorem libraries_and_binaries_are_independent
    machine machine' ldCache ldCache' (gpuFiles : list string)
    (env env' : gmap string string) (n n' : nat) :
  libraries (value (resolve machine ldCache gpuFiles (State env n))) =
    libraries (value (resolve machine ldCache
                        (filter (λ gpuFile, isLibrary gpuFile = true) gpuFiles)
                        (State env' n))) ∧
  binaries (value (resolve machine ldCache gpuFiles (State env n))) =
    binaries (value (resolve machine' ldCache'
                       (filter (λ gpuFile, isLibrary gpuFile = false) gpuFiles)
                       (State env n'))).
Proof.
  split; [by apply resolveFrom_libraries|].
  rewrite !resolve_binaries. simpl. do 2 f_equal. symmetry.
  by apply list_filter_filter_l.
Qed.
End Lists.

(** ** Candidate lists of one kind, an empty cache, the files opened *)

Section Kinds.
Context `{Host}.
Implicit Types (machine : Machine) (ldCache : gmap string string).
Implicit Types (a : found) (s : state) (gpuFile libPath libName : string).

Lemma resolveFrom_no_marker machine ldCache gpuFiles a s :
  Forall (λ gpuFile, isLibrary gpuFile = false) gpuFiles →
  libraries (value (resolveFrom machine ldCache a gpuFiles s)) = libraries a ∧
  libs (value (resolveFrom machine ldCache a gpuFiles s)) = libs a ∧
  calls (resolveFrom machine ldCache a gpuFiles s) = EvLookPath <$> gpuFiles ∧
  final (resolveFrom machine ldCache a gpuFiles s) = s.
Proof.
  unfold resolveFrom, isLibrary. intros Hall. revert a.
  induction Hall as [|gpuFile gpuFiles Hso _ IH]; intros a; [done|].
  simpl. run. rewrite resolveFile_binary by done. project.
  destruct (IH (match lookPath (st_env s) gpuFile with
                | Some binary =>
                    if decide (binary ∈ bins a) then a
                    else Found (libs a) ({[binary]} ∪ bins a)
                               (libraries a) (binaries a ++ [binary])
                | None => a
                end)) as (-> & -> & -> & ->).
  repeat split; destruct (lookPath (st_env s) gpuFile); try done; by case_decide.
Qed.

Lemma resolveFrom_all_marker machine ldCache gpuFiles a s :
  Forall (λ gpuFile, isLibrary gpuFile = true) gpuFiles →
  binaries (value (resolveFrom machine ldCache a gpuFiles s)) = binaries a ∧
  bins (value (resolveFrom machine ldCache a gpuFiles s)) = bins a ∧
  final (resolveFrom machine ldCache a gpuFiles s) =
    State (st_env s) (length gpuFiles + st_range s).
Proof.
  unfold resolveFrom, isLibrary. intros Hall. revert a s.
  induction Hall as [|gpuFile gpuFiles Hso _ IH]; intros a s; [by destruct s|].
  simpl. run. rewrite resolveFile_final, Hso.
  destruct (resolveFile_bins machine ldCache a gpuFile s Hso) as [Hb1 Hb2].
  destruct (IH (value (resolveFile machine ldCache a gpuFile s))
               (State (st_env s) (S (st_range s)))) as (-> & -> & ->).
  repeat split; try done. simpl. f_equal. lia.
Qed.

Lemma rangeOrder_empty (n : nat) : rangeOrder n ∅ = [].
Proof.
  apply Permutation_nil_r. rewrite (rangeOrder_perm n ∅). by rewrite map_to_list_empty.
Qed.

Lemma resolveFrom_empty_cache machine gpuFiles a s :
  libraries (value (resolveFrom machine ∅ a gpuFiles s)) = libraries a ∧
  Forall (λ e, isLookPath e = true) (calls (resolveFrom machine ∅ a gpuFiles s)).
Proof.
  unfold resolveFrom. revert a s.
  induction gpuFiles as [|gpuFile gpuFiles IH]; intros a s; [by split|].
  simpl. run. destruct (Contains gpuFile ".so") eqn:Hso.
  - destruct (resolveFile_library machine ∅ a gpuFile s Hso) as (-> & -> & ->).
    cbv zeta. rewrite rangeOrder_empty. simpl. apply IH.
  - rewrite resolveFile_binary by done. project.
    match goal with
    | |- context [forEach _ ?a1 gpuFiles s] => destruct (IH a1 s) as [-> Hcalls]
    end.
    split; [|by constructor].
    destruct (lookPath (st_env s) gpuFile); [|done]. by case_decide.
Qed.

(** X8.  A candidate list with no name that has the marker gives no
    library: the cache is not gone through and no file is opened, the calls
    are the lookups of the names, one each, in order.  A list whose names all
    have the marker gives no binary and makes no lookup; the cache is gone
    through once for each name.  With an empty cache no library is found and
    no file is opened, whatever the candidate names. *)
Theorem candidates_of_one_kind machine ldCache (gpuFiles : list string) s :
  (Forall (λ gpuFile, isLibrary gpuFile = false) gpuFiles →
     libraries (value (resolve machine ldCache gpuFiles s)) = [] ∧
     calls (resolve machine ldCache gpuFiles s) = EvLookPath <$> gpuFiles ∧
     final (resolve machine ldCache gpuFiles s) = s) ∧
  (Forall (λ gpuFile, isLibrary gpuFile = true) gpuFiles →
     binaries (value (resolve machine ldCache gpuFiles s)) = [] ∧
     Forall (λ e, isLookPath e = false) (calls (resolve machine ldCache gpuFiles s)) ∧
     st_range (final (resolve machine ldCache gpuFiles s)) =
       length gpuFiles + st_range s) ∧
  (libraries (value (resolve machine ∅ gpuFiles s)) = [] ∧
   Forall (λ e, isLookPath e = true) (calls (resolve machine ∅ gpuFiles s))).
Proof.
  split; [|split].
  - intros Hall.
    by destruct (resolveFrom_no_marker machine ldCache gpuFiles nothing s Hall)
      as (? & _ & ? & ?).
  - intros Hall.
    destruct (resolveFrom_all_marker machine ldCache gpuFiles nothing s Hall)
      as (Hb & _ & Hfinal).
    unfold resolve. rewrite Hfinal. repeat split; try done.
    apply Forall_forall. intros e Hin. destruct (isLookPath e) eqn:He; [|done].
    assert (e ∈ filter (λ e, isLookPath e)
                  (calls (resolveFrom machine ldCache nothing gpuFiles s))) as Hlook.
    { apply list_elem_of_filter. split; [by apply Is_true_true | done]. }
    rewrite resolveFrom_lookups, filter_none in Hlook; [by apply elem_of_nil in Hlook|].
    eapply Forall_impl; [done|]. simpl. intros g Hg. congruence.
  - apply resolveFrom_empty_cache.
Qed.

Lemma matchEntry_calls_matching machine gpuFile a libPath libName s :
  Forall (λ e, (e = EvElfOpen libPath ∨ e = EvClose libPath) ∧
               HasPrefix libName gpuFile = true)
         (calls (matchEntry machine gpuFile a (libPath, libName) s)).
Proof.
  pose proof (matchEntry_calls machine gpuFile a libPath libName s) as Hcalls.
  destruct (HasPrefix libName gpuFile) eqn:Hpre.
  - eapply Forall_impl; [done|]. by intros e He.
  - unfold matchEntry. rewrite Hpre. constructor.
Qed.

(** X9.  The loop opens no file but entries of the cache wanted by a
    candidate: every file opened or closed is a path of the cache whose name
    starts with a candidate name that has the marker, and every lookup is for
    a candidate name that has none.  The loop makes no other call: it runs no
    command and reads or writes no environment variable. *)
Theorem loop_opens_only_matching_entries machine ldCache (gpuFiles : list string) s :
  Forall (λ e,
            match e with
            | EvElfOpen libPath | EvClose libPath =>
                ∃ libName gpuFile,
                  ldCache !! libPath = Some libName ∧ gpuFile ∈ gpuFiles ∧
                  isLibrary gpuFile = true ∧ HasPrefix libName gpuFile = true
            | EvLookPath gpuFile => gpuFile ∈ gpuFiles ∧ isLibrary gpuFile = false
            | _ => False
            end)
         (calls (resolve machine ldCache gpuFiles s)).
Proof.
  unfold resolve, resolveFrom, isLibrary. apply forEach_calls_in.
  intros a gpuFile s' Hin. destruct (Contains gpuFile ".so") eqn:Hso.
  - destruct (resolveFile_library machine ldCache a gpuFile s' Hso) as (_ & _ & ->).
    apply forEach_calls_in. intros a' [libPath libName] s'' Hentry.
    eapply Forall_impl; [apply matchEntry_calls_matching|].
    assert (ldCache !! libPath = Some libName) as Hcache.
    { rewrite (rangeOrder_perm (st_range s') ldCache) in Hentry.
      by apply elem_of_map_to_list in Hentry. }
    intros e [[-> | ->] Hpre]; by exists libName, gpuFile.
  - rewrite resolveFile_binary by done. project. by repeat constructor.
Qed.
End Kinds.

(** ** [GetRocmPath] *)

Section Rocm.
Context `{Host}.

Lemma rocmContainerCli_run (s : state) :
  ∃ rest,
    rocmutils.rocmContainerCli s =
      (value (rocmutils.rocmContainerCli s), s, EvLookPath "rocm-container-cli" :: rest) ∧
    Forall (λ e, isEnvCall e = false ∧ isOpen e = false) rest.
Proof.
  unfold rocmutils.rocmContainerCli, mbind, M_bind, LookPath, Output, value; simpl.
  destruct (lookPath (st_env s) "rocm-container-cli") as [path|]; simpl.
  - destruct (output (st_env s) path _); simpl; eexists; (split; [done|]);
      by repeat constructor.
  - eexists; split; [done | constructor].
Qed.

Lemma rocmLiblist_run (abspath : string) (s : state) :
  let path := abspath +:+ "/rocmliblist.conf" in
  rocmutils.rocmLiblist abspath s =
    match openFile path with
    | Some text =>
        (inl (filter (λ line, kept line) (TrimSpace <$> scanLines text)), s,
         [EvOpen path; EvClose path])
    | None => (inr (Errorf "" (HostError (EvOpen path))), s, [EvOpen path])
    end.
Proof.
  unfold rocmutils.rocmLiblist, mbind, M_bind, Open, Close; simpl.
  destruct (openFile _); simpl; [|done].
  by rewrite foldl_listLine_utils.
Qed.

Lemma GetRocmPath_plain (abspath : string) (s : state) :
  rocmutils.GetRocmPath abspath "" s =
    let cli := rocmutils.rocmContainerCli s in
    match value cli with
    | inl strArray =>
        let r := gpuutils.lookup strArray s in
        (value r, final r, calls cli ++ calls r)
    | inr _ =>
        let path := abspath +:+ "/rocmliblist.conf" in
        match openFile path with
        | Some text =>
            let r := gpuutils.lookup
                       (filter (λ line, kept line) (TrimSpace <$> scanLines text)) s in
            (value r, final r, calls cli ++ [EvOpen path; EvClose path] ++ calls r)
        | None =>
            (([], [], Some (Errorf "" (HostError (EvOpen path)))),
             s, calls cli ++ [EvOpen path])
        end
    end.
Proof.
  unfold rocmutils.GetRocmPath. destruct (rocmContainerCli_run s) as (rest & Hcli & _).
  cbv zeta. revert Hcli. generalize (value (rocmutils.rocmContainerCli s)) as cli.
  intros cli Hcli. rewrite Hcli. project. simpl.
  unfold mbind, M_bind; simpl. rewrite Hcli. destruct cli as [strArray|err].
  - unfold value, final, calls. destruct (gpuutils.lookup strArray s) as [[r s'] t]; simpl.
    by rewrite !app_nil_r.
  - rewrite rocmLiblist_run. cbv zeta.
    destruct (openFile (abspath +:+ "/rocmliblist.conf")) as [text|]; simpl;
      [|by rewrite app_nil_r].
    unfold value, final, calls. destruct (gpuutils.lookup _ s) as [[r s'] t]; simpl.
    by rewrite !app_nil_r.
Qed.

Lemma GetRocmPath_stub_plain (abspath : string) (s : state) :
  rocmstub.GetRocmPath abspath "" s =
    (value (gpuutils.lookup [] s), final (gpuutils.lookup [] s),
     calls (gpuutils.lookup [] s)).
Proof.
  unfold rocmstub.GetRocmPath, rocmstub.rocmContainerCli, mbind, M_bind; simpl.
  unfold value, final, calls. destruct (gpuutils.lookup [] s) as [[r s'] t]; simpl.
  by rewrite app_nil_r.
Qed.

Lemma GetRocmPath_override (abspath envPath : string) (s : state) :
  envPath ≠ "" →
  let oldPath := default "" (st_env s !! "PATH") in
  let inner := rocmutils.GetRocmPath abspath "" (entered envPath s) in
  rocmutils.GetRocmPath abspath envPath s =
    (value inner,
     State (<["PATH":=oldPath]> (st_env (final inner))) (st_range (final inner)),
     [EvGetenv "PATH"; EvSetenv "PATH" envPath] ++ calls inner ++
     [EvSetenv "PATH" oldPath]).
Proof.
  intros Hne. unfold entered. rewrite decide_True by done.
  unfold rocmutils.GetRocmPath.
  set (body := rocmutils.rocmContainerCli ≫= _).
  rewrite decide_True by done. rewrite decide_False by (by intros Hn).
  unfold mbind, M_bind, Getenv, Setenv, value, final, calls; simpl.
  destruct (body _) as [[r s'] t]; simpl. by rewrite !app_nil_r.
Qed.

Lemma GetRocmPath_stub_override (abspath envPath : string) (s : state) :
  envPath ≠ "" →
  let oldPath := default "" (st_env s !! "PATH") in
  let inner := rocmstub.GetRocmPath abspath "" (entered envPath s) in
  rocmstub.GetRocmPath abspath envPath s =
    (value inner,
     State (<["PATH":=oldPath]> (st_env (final inner))) (st_range (final inner)),
     [EvGetenv "PATH"; EvSetenv "PATH" envPath] ++ calls inner ++
     [EvSetenv "PATH" oldPath]).
Proof.
  intros Hne. unfold entered. rewrite decide_True by done.
  unfold rocmstub.GetRocmPath.
  set (body := rocmstub.rocmContainerCli ≫= _).
  rewrite decide_True by done. rewrite decide_False by (by intros Hn).
  unfold mbind, M_bind, Getenv, Setenv, value, final, calls; simpl.
  destruct (body _) as [[r s'] t]; simpl. by rewrite !app_nil_r.
Qed.

Lemma GetRocmPath_plain_run (abspath : string) (s : state) :
  outcome (value (rocmutils.GetRocmPath abspath "" s)) ∧
  st_env (final (rocmutils.GetRocmPath abspath "" s)) = st_env s ∧
  Forall (λ e, isEnvCall e = false) (calls (rocmutils.GetRocmPath abspath "" s)).
Proof.
  rewrite GetRocmPath_plain. cbv zeta.
  destruct (rocmContainerCli_run s) as (rest & Hcli & Hrest).
  assert (Forall (λ e, isEnvCall e = false) (calls (rocmutils.rocmContainerCli s)))
    as Hcalls.
  { rewrite Hcli. project. constructor; [done|].
    eapply Forall_impl; [done|]. by intros e [? _]. }
  destruct (value (rocmutils.rocmContainerCli s)) as [strArray|err].
  - destruct (lookup_outcome_utils strArray s) as (Hout & Henv & Hlook).
    project. repeat split; [done..|].
    apply Forall_app. split; [done|].
    eapply Forall_impl; [done|]. by intros e [? _].
  - destruct (openFile (abspath +:+ "/rocmliblist.conf")) as [text|].
    + destruct (lookup_outcome_utils
                  (filter (λ line, kept line) (TrimSpace <$> scanLines text)) s)
        as (Hout & Henv & Hlook).
      project. repeat split; [done..|].
      apply Forall_app. split; [done|]. repeat (constructor; [done|]).
      eapply Forall_impl; [done|]. by intros e [? _].
    + project. repeat split; [left; by eexists|].
      apply Forall_app. split; [done | by repeat constructor].
Qed.

Lemma GetRocmPath_stub_plain_run (abspath : string) (s : state) :
  outcome (value (rocmstub.GetRocmPath abspath "" s)) ∧
  st_env (final (rocmstub.GetRocmPath abspath "" s)) = st_env s ∧
  Forall (λ e, isEnvCall e = false) (calls (rocmstub.GetRocmPath abspath "" s)).
Proof.
  rewrite GetRocmPath_stub_plain. project.
  destruct (lookup_outcome_utils [] s) as (Hout & Henv & Hlook).
  repeat split; [done..|]. eapply Forall_impl; [done|]. by intros e [? _].
Qed.
End Rocm.

Section RocmResults.
Context `{Host}.

Lemma outcome_architecture (r : result) :
  outcome r →
  Forall (λ libPath, is_Some (elfMachine libPath) ∧
                     elfMachine libPath = elfMachine "/proc/self/exe") r.1.1.
Proof.
  intros [[err ->] | (m & c & g & s' & Hself & ->)]; simpl; [constructor|].
  apply Forall_forall. intros libPath Hin.
  destruct (resolve_consistent m c g s') as [Horigin _ _ _ _].
  destruct (Horigin _ Hin) as (? & ? & ? & ? & ? & ? & ? & Helf).
  by rewrite Helf, Hself.
Qed.

Lemma outcome_error (r : result) :
  outcome r → is_Some r.2 → r.1.1 = [] ∧ r.1.2 = [].
Proof.
  intros [[err ->] | (m & c & g & s' & Hself & ->)]; simpl; [done|].
  by intros [err Herr].
Qed.

Lemma GetRocmPath_outcome (abspath envPath : string) (s : state) :
  outcome (value (rocmutils.GetRocmPath abspath envPath s)) ∧
  outcome (value (rocmstub.GetRocmPath abspath envPath s)).
Proof.
  destruct (decide (envPath = "")) as [->|Hne].
  - split; [apply GetRocmPath_plain_run | apply GetRocmPath_stub_plain_run].
  - rewrite GetRocmPath_override, GetRocmPath_stub_override by done. project.
    split; [apply GetRocmPath_plain_run | apply GetRocmPath_stub_plain_run].
Qed.

(** X10.  What [GetRocmPath] returns, in both texts of the package: no path
    twice in either list, only libraries whose file has the architecture of
    [/proc/self/exe], and two empty lists whenever the error is not nil. *)
Theorem GetRocmPath_result (abspath envPath : string) (s : state) :
  let good (r : result) :=
    NoDup r.1.1 ∧ NoDup r.1.2 ∧
    Forall (λ libPath, is_Some (elfMachine libPath) ∧
                       elfMachine libPath = elfMachine "/proc/self/exe") r.1.1 ∧
    (is_Some r.2 → r.1.1 = [] ∧ r.1.2 = []) in
  good (value (rocmutils.GetRocmPath abspath envPath s)) ∧
  good (value (rocmstub.GetRocmPath abspath envPath s)).
Proof.
  assert (∀ r, outcome r →
            NoDup r.1.1 ∧ NoDup r.1.2 ∧
            Forall (λ libPath, is_Some (elfMachine libPath) ∧
                               elfMachine libPath = elfMachine "/proc/self/exe") r.1.1 ∧
            (is_Some r.2 → r.1.1 = [] ∧ r.1.2 = [])) as Hgood.
  { intros r Hr. destruct (outcome_once r Hr) as [? ?].
    split; [done|]. split; [done|]. split; [by apply outcome_architecture|].
    by apply outcome_error. }
  destruct (GetRocmPath_outcome abspath envPath s). split; by apply Hgood.
Qed.

(** X11.  [GetRocmPath] and the search path, in both texts of the
    package.  With the empty string for [envPath] no call reads or writes
    the environment, which is left as it was.  With any other [envPath] the
    override is scoped as it is for [Paths]: [PATH] is saved, set, left
    alone by the body and set back as the last call, on every return. *)
Theorem GetRocmPath_search_path (abspath envPath : string) (s : state) :
  let scoped (call : string → M result) :=
    if decide (envPath = "")
    then Forall (λ e, isEnvCall e = false) (calls (call "" s)) ∧
         st_env (final (call "" s)) = st_env s
    else scopedOverride call envPath s in
  scoped (rocmutils.GetRocmPath abspath) ∧ scoped (rocmstub.GetRocmPath abspath).
Proof.
  cbv zeta. case_decide as Hempty.
  - destruct (GetRocmPath_plain_run abspath s) as (_ & ? & ?).
    by destruct (GetRocmPath_stub_plain_run abspath s) as (_ & ? & ?).
  - split; apply scopedOverride_intro; try done.
    + intros s'. by destruct (GetRocmPath_plain_run abspath s') as (_ & ? & ?).
    + by apply GetRocmPath_override.
    + intros s'. by destruct (GetRocmPath_stub_plain_run abspath s') as (_ & ? & ?).
    + by apply GetRocmPath_stub_override.
Qed.

(** X12.  The later text of the package finds nothing.  Its
    [rocmContainerCli] returns an empty list and no error, so the list file
    is never opened and no candidate is resolved: the call makes no lookup
    and opens no file but [/proc/self/exe], and returns two empty lists, with
    an error exactly when [ldconfig -p] cannot be run or the header of
    [/proc/self/exe] cannot be read. *)
Theorem GetRocmPath_stub_finds_nothing (abspath envPath : string) (s : state) :
  let r := rocmstub.GetRocmPath abspath envPath s in
  (value r).1.1 = [] ∧ (value r).1.2 = [] ∧
  (is_Some (value r).2 ↔
     output (st_env (entered envPath s)) "ldconfig" ["-p"] = None ∨
     elfMachine "/proc/self/exe" = None) ∧
  Forall (λ e, isOpen e = false ∧ isLookPath e = false ∧
               (isElfOpen e = true → e = EvElfOpen "/proc/self/exe"))
         (calls r).
Proof.
  assert (∀ s',
            let r' := rocmstub.GetRocmPath abspath "" s' in
            (value r').1.1 = [] ∧ (value r').1.2 = [] ∧
            (is_Some (value r').2 ↔
               output (st_env s') "ldconfig" ["-p"] = None ∨
               elfMachine "/proc/self/exe" = None) ∧
            Forall (λ e, isOpen e = false ∧ isLookPath e = false ∧
                         (isElfOpen e = true → e = EvElfOpen "/proc/self/exe"))
                   (calls r')) as Hplain.
  { intros s'. cbv zeta. rewrite GetRocmPath_stub_plain, lookup_run_utils. project.
    destruct (output (st_env s') "ldconfig" ["-p"]) as [out|]; simpl.
    - destruct (elfMachine "/proc/self/exe") as [machine|]; simpl.
      + split; [done|]. split; [done|]. split; [|by repeat constructor].
        split; [by intros [err Herr] | by intros [Hn | Hn]].
      + split; [done|]. split; [done|]. split; [|by repeat constructor].
        split; [by right | by eexists].
    - split; [done|]. split; [done|]. split; [|by repeat constructor].
      split; [by left | by eexists]. }
  cbv zeta. destruct (decide (envPath = "")) as [->|Hne]; [apply Hplain|].
  rewrite GetRocmPath_stub_override by done. project.
  destruct (Hplain (entered envPath s)) as (-> & -> & Herr & Hcalls).
  split; [done|]. split; [done|]. split; [done|].
  repeat (constructor; [done|]). apply Forall_app. split; [done | by repeat constructor].
Qed.
End RocmResults.

(** ** The cache *)

Section Cache.
Context `{Host}.

Lemma foldl_cache (matches : list (string * string)) (m : gmap string string)
    (libPath : string) :
  foldl (λ ldCache groups, <[TrimSpace groups.2:=TrimSpace groups.1]> ldCache)
        m matches !! libPath =
    match last (filter (λ groups, TrimSpace groups.2 = libPath) matches) with
    | Some groups => Some (TrimSpace groups.1)
    | None => m !! libPath
    end.
Proof.
  revert m. induction matches as [|groups matches IH]; intros m; [done|].
  simpl. rewrite IH, filter_cons. case_decide as Hpath.
  - destruct (filter _ matches) as [|groups' rest] eqn:Hrest.
    + simpl. by rewrite <- Hpath, lookup_insert_eq.
    + rewrite last_cons_cons.
      destruct (last (groups' :: rest)) as [g|] eqn:Hlast; [done|].
      by apply last_None in Hlast.
  - destruct (last _); [done|]. by rewrite lookup_insert_ne.
Qed.

Lemma foldl_cache_size (matches : list (string * string)) (m : gmap string string) :
  size (foldl (λ ldCache groups, <[TrimSpace groups.2:=TrimSpace groups.1]> ldCache)
              m matches) ≤ size m + length matches.
Proof.
  revert m. induction matches as [|groups matches IH]; intros m; simpl; [lia|].
  etrans; [apply IH|].
  destruct (m !! TrimSpace groups.2) as [old|] eqn:Hold.
  - rewrite map_size_insert_Some by done. lia.
  - rewrite map_size_insert_None by done. lia.
Qed.

(** X13.  The cache built from the output of [ldconfig -p] maps a path to
    the name of the last line that gives this path, both trimmed, and holds
    no path that no line gives; it has at most one entry for each line. *)
Theorem ldCache_last_line_wins (out libPath : string) :
  ldCacheOf out !! libPath =
    (λ groups, TrimSpace groups.1) <$>
      last (filter (λ groups, TrimSpace groups.2 = libPath) (FindAllSubmatch out)) ∧
  size (ldCacheOf out) ≤ length (FindAllSubmatch out).
Proof.
  unfold ldCacheOf. split.
  - rewrite foldl_cache. by destruct (last _).
  - etrans; [apply foldl_cache_size|]. by rewrite map_size_empty.
Qed.
End Cache.

(** ** Open files *)

Section Handles.
Context `{Host}.

Lemma heldAfter_app (held : list string) (t1 t2 : list event) :
  heldAfter held (t1 ++ t2) = heldAfter (heldAfter held t1) t2.
Proof.
  revert held. induction t1 as [|e t1 IH]; intros held; [done|].
  destruct e; simpl; apply IH.
Qed.

Lemma release_head (path : string) (held : list string) :
  release path (path :: held) = held.
Proof. simpl. by rewrite decide_True. Qed.

Lemma tidy_nil : tidy [].
Proof.
  intros held. split; [done|]. intros t1 t2 Heq.
  symmetry in Heq. apply app_eq_nil in Heq as [-> _]. simpl. lia.
Qed.

Lemma tidy_app (t1 t2 : list event) : tidy t1 → tidy t2 → tidy (t1 ++ t2).
Proof.
  intros H1 H2 held. destruct (H1 held) as [Hend1 Hmid1].
  destruct (H2 held) as [Hend2 Hmid2]. split.
  - by rewrite heldAfter_app, Hend1.
  - intros u1 u2 Heq. apply app_eq_inv in Heq as [(k & -> & ->) | (k & -> & ->)].
    + by eapply Hmid1.
    + rewrite heldAfter_app, Hend1. by eapply Hmid2.
Qed.

Lemma tidy_one (e : event) : isHandleCall e = false → tidy [e].
Proof.
  intros He held. split; [by destruct e|]. intros t1 t2 Heq.
  destruct t1 as [|e1 t1]; [simpl; lia|].
  injection Heq as <- Heq. symmetry in Heq. apply app_eq_nil in Heq as [-> _].
  destruct e; try done; simpl; lia.
Qed.

Lemma tidy_quiet (t : list event) : Forall (λ e, isHandleCall e = false) t → tidy t.
Proof.
  induction 1 as [|e t He _ IH]; [apply tidy_nil|].
  apply (tidy_app [e] t); [by apply tidy_one | done].
Qed.

Lemma tidy_open_close (open : string → event) (path : string) :
  (open = EvOpen ∧ is_Some (openFile path)) ∨
  (open = EvElfOpen ∧ is_Some (elfMachine path)) →
  tidy [open path; EvClose path].
Proof.
  intros Hopen held.
  assert (heldAfter held [open path] = path :: held) as Hheld.
  { destruct Hopen as [[-> [x Hx]] | [-> [x Hx]]]; simpl; by rewrite Hx. }
  split.
  - change [open path; EvClose path] with ([open path] ++ [EvClose path]).
    rewrite heldAfter_app, Hheld. simpl. by rewrite decide_True.
  - intros t1 t2 Heq. destruct t1 as [|e1 t1]; [simpl; lia|].
    injection Heq as <- Heq. destruct t1 as [|e2 t1]; [rewrite Hheld; simpl; lia|].
    injection Heq as <- Heq. symmetry in Heq. apply app_eq_nil in Heq as [-> _].
    change [open path; EvClose path] with ([open path] ++ [EvClose path]).
    rewrite heldAfter_app, Hheld. simpl. rewrite decide_True by done. lia.
Qed.

Lemma tidy_open_failed (open : string → event) (path : string) :
  (open = EvOpen ∧ openFile path = None) ∨
  (open = EvElfOpen ∧ elfMachine path = None) →
  tidy [open path].
Proof.
  intros Hopen held.
  assert (heldAfter held [open path] = held) as Hheld.
  { destruct Hopen as [[-> Hx] | [-> Hx]]; simpl; by rewrite Hx. }
  split; [done|]. intros t1 t2 Heq. destruct t1 as [|e1 t1]; [simpl; lia|].
  injection Heq as <- Heq. symmetry in Heq. apply app_eq_nil in Heq as [-> _].
  rewrite Hheld. lia.
Qed.

Lemma forEach_calls_closed {A B} (f : A → B → M A) (P : list event → Prop)
    (l : list B) :
  P [] → (∀ t1 t2, P t1 → P t2 → P (t1 ++ t2)) →
  (∀ a x s, P (calls (f a x s))) →
  ∀ a s, P (calls (forEach f a l s)).
Proof.
  intros Hnil Happ Hstep. induction l as [|x l IH]; intros a s; simpl; [done|].
  run. by apply Happ.
Qed.

Lemma matchEntry_tidy machine gpuFile a entry s :
  tidy (calls (matchEntry machine gpuFile a entry s)).
Proof.
  destruct entry as [libPath libName]. unfold matchEntry.
  destruct (HasPrefix libName gpuFile); simpl; [|apply tidy_nil].
  case_decide; [apply tidy_nil|]. run. unfold elfOpen, value; simpl.
  destruct (elfMachine libPath) as [m|] eqn:Helf; simpl.
  - apply (tidy_open_close EvElfOpen). right. by rewrite Helf.
  - apply (tidy_open_failed EvElfOpen). by right.
Qed.

Lemma resolveFrom_tidy machine ldCache a gpuFiles s :
  tidy (calls (resolveFrom machine ldCache a gpuFiles s)).
Proof.
  unfold resolveFrom.
  apply (forEach_calls_closed _ tidy); [apply tidy_nil | apply tidy_app |].
  intros a' gpuFile s'. destruct (Contains gpuFile ".so") eqn:Hso.
  - destruct (resolveFile_library machine ldCache a' gpuFile s' Hso) as (_ & _ & ->).
    apply (forEach_calls_closed _ tidy); [apply tidy_nil | apply tidy_app |].
    intros. apply matchEntry_tidy.
  - rewrite resolveFile_binary by done. by apply tidy_one.
Qed.

Lemma lookup_tidy (gpuFiles : list string) (s : state) :
  tidy (calls (gpu.lookup gpuFiles s)) ∧ tidy (calls (gpuutils.lookup gpuFiles s)).
Proof.
  rewrite lookup_run, lookup_run_utils.
  destruct (output (st_env s) "ldconfig" ["-p"]) as [out|];
    [|split; by apply tidy_one].
  destruct (elfMachine "/proc/self/exe") as [machine|] eqn:Hself; project.
  - assert (tidy ([EvCommand "ldconfig" ["-p"]; EvElfOpen "/proc/self/exe";
                   EvClose "/proc/self/exe"] ++
                  calls (resolve machine (ldCacheOf out) gpuFiles s))) as Htidy;
      [|done].
    apply (tidy_app [_; _; _]); [|apply resolveFrom_tidy].
    apply (tidy_app [_] [_; _]); [by apply tidy_one|].
    apply (tidy_open_close EvElfOpen). right. by rewrite Hself.
  - assert (tidy [EvCommand "ldconfig" ["-p"]; EvElfOpen "/proc/self/exe"]) as Htidy;
      [|done].
    apply (tidy_app [_] [_]); [by apply tidy_one|].
    apply (tidy_open_failed EvElfOpen). by right.
Qed.

Lemma cli_tidy (s : state) :
  tidy (calls (gpu.gpuContainerCli s)) ∧
  tidy (calls (gpuutils.gpuContainerCli s)) ∧
  tidy (calls (rocmutils.rocmContainerCli s)).
Proof.
  repeat split; apply tidy_quiet;
    unfold gpu.gpuContainerCli, gpuutils.gpuContainerCli, rocmutils.rocmContainerCli,
      mbind, M_bind, LookPath, Output; simpl;
    (destruct (lookPath _ _) as [path|]; simpl; [|by repeat constructor]);
    destruct (output _ _ _); by repeat constructor.
Qed.

Lemma joined_tidy (cli look look' : list event) (path : string) :
  tidy cli → tidy look → tidy look' →
  tidy (cli ++ look) ∧
  match openFile path with
  | Some _ => tidy (cli ++ [EvOpen path; EvClose path] ++ look')
  | None => tidy (cli ++ [EvOpen path])
  end.
Proof.
  intros Hcli Hlook Hlook'. split; [by apply tidy_app|].
  destruct (openFile path) as [text|] eqn:Hopen.
  - apply tidy_app; [done|]. apply tidy_app; [|done].
    apply (tidy_open_close EvOpen). left. by rewrite Hopen.
  - apply tidy_app; [done|]. apply (tidy_open_failed EvOpen). by left.
Qed.

Lemma wrapped_tidy (envPath : string) (s : state) (t : list event) :
  tidy t → tidy (prologue envPath ++ t ++ epilogue envPath s).
Proof.
  intros Ht. unfold prologue, epilogue.
  apply tidy_app; [case_decide; apply tidy_quiet; by repeat constructor|].
  apply tidy_app; [done|]. case_decide; apply tidy_quiet; by repeat constructor.
Qed.

Lemma Paths_tidy (gpuDir envPath : string) (gpu : GpuCfg) (s : state) :
  tidy (calls (gpu.Paths gpuDir envPath gpu s)).
Proof.
  destruct (Paths_wrapped gpuDir envPath gpu s) as [_ ->]. apply wrapped_tidy.
  generalize (entered envPath s) as s1. intros s1. rewrite Paths_plain. cbv zeta.
  destruct (cli_tidy s1) as (Hcli & _ & _).
  destruct (value (gpu.gpuContainerCli s1)) as [gpuFiles|err].
  - project. apply tidy_app; [done | apply lookup_tidy].
  - pose proof (joined_tidy (calls (gpu.gpuContainerCli s1)) [] [] (Join gpuDir (File gpu))
                  Hcli tidy_nil tidy_nil) as [_ Hnone].
    destruct (openFile (Join gpuDir (File gpu))) as [text|] eqn:Hopen; project.
    + apply tidy_app; [done|]. apply tidy_app; [|apply lookup_tidy].
      apply (tidy_open_close EvOpen). left. by rewrite Hopen.
    + done.
Qed.

Lemma GetGpuPath_tidy (abspath envPath : string) (gpu : GpuCfg) (s : state) :
  tidy (calls (gpuutils.GetGpuPath abspath envPath gpu s)).
Proof.
  destruct (GetGpuPath_wrapped abspath envPath gpu s) as [_ ->]. apply wrapped_tidy.
  generalize (entered envPath s) as s1. intros s1. rewrite GetGpuPath_plain. cbv zeta.
  destruct (cli_tidy s1) as (_ & Hcli & _).
  destruct (value (gpuutils.gpuContainerCli s1)) as [strArray|err].
  - project. apply tidy_app; [done | apply lookup_tidy].
  - pose proof (joined_tidy (calls (gpuutils.gpuContainerCli s1)) [] []
                  (abspath +:+ "/" +:+ File gpu) Hcli tidy_nil tidy_nil) as [_ Hnone].
    destruct (openFile (abspath +:+ "/" +:+ File gpu)) as [text|] eqn:Hopen; project.
    + apply tidy_app; [done|]. apply tidy_app; [|apply lookup_tidy].
      apply (tidy_open_close EvOpen). left. by rewrite Hopen.
    + done.
Qed.

Lemma GetRocmPath_tidy (abspath envPath : string) (s : state) :
  tidy (calls (rocmutils.GetRocmPath abspath envPath s)) ∧
  tidy (calls (rocmstub.GetRocmPath abspath envPath s)).
Proof.
  assert (∀ s1, tidy (calls (rocmutils.GetRocmPath abspath "" s1)) ∧
                tidy (calls (rocmstub.GetRocmPath abspath "" s1))) as Hplain.
  { intros s1. split.
    - rewrite GetRocmPath_plain. cbv zeta. destruct (cli_tidy s1) as (_ & _ & Hcli).
      destruct (value (rocmutils.rocmContainerCli s1)) as [strArray|err].
      + project. apply tidy_app; [done | apply lookup_tidy].
      + pose proof (joined_tidy (calls (rocmutils.rocmContainerCli s1)) [] []
                      (abspath +:+ "/rocmliblist.conf") Hcli tidy_nil tidy_nil)
          as [_ Hnone].
        destruct (openFile (abspath +:+ "/rocmliblist.conf")) as [text|] eqn:Hopen;
          project.
        * apply tidy_app; [done|]. apply tidy_app; [|apply lookup_tidy].
          apply (tidy_open_close EvOpen). left. by rewrite Hopen.
        * done.
    - rewrite GetRocmPath_stub_plain. project. apply lookup_tidy. }
  destruct (decide (envPath = "")) as [->|Hne]; [apply Hplain|].
  rewrite GetRocmPath_override, GetRocmPath_stub_override by done. project.
  destruct (Hplain (entered envPath s)) as [H1 H2].
  split; apply (tidy_app [_; _]); try (apply tidy_quiet; by repeat constructor);
    (apply tidy_app; [done|]); apply tidy_quiet; by repeat constructor.
Qed.

(** X14.  No file is left open.  Over the calls of [Paths], of [GetGpuPath]
    and of [GetRocmPath], every file that opened, the list file, the running
    executable or a library of the cache, is closed again, and at no point
    of the call is more than one file held open. *)
Theorem every_opened_file_is_closed
    (gpuDir envPath : string) (gpu : GpuCfg) (s : state) :
  let closes (t : list event) :=
    heldAfter [] t = [] ∧
    ∀ t1 t2, t = t1 ++ t2 → length (heldAfter [] t1) ≤ 1 in
  closes (calls (gpu.Paths gpuDir envPath gpu s)) ∧
  closes (calls (gpuutils.GetGpuPath gpuDir envPath gpu s)) ∧
  closes (calls (rocmutils.GetRocmPath gpuDir envPath s)) ∧
  closes (calls (rocmstub.GetRocmPath gpuDir envPath s)).
Proof.
  cbv zeta. destruct (GetRocmPath_tidy gpuDir envPath s) as [Hrocm Hstub].
  split; [apply (Paths_tidy gpuDir envPath gpu s [])|].
  split; [apply (GetGpuPath_tidy gpuDir envPath gpu s [])|].
  split; [apply (Hrocm []) | apply (Hstub [])].
Qed.
End Handles.

(** ** Errors, and the two packages side by side *)

Section Errors.
Context `{Host}.

Lemma lookup_error (gpuFiles : list string) (s : state) :
  let fatal := output (st_env s) "ldconfig" ["-p"] = None ∨
               elfMachine "/proc/self/exe" = None in
  (is_Some (value (gpu.lookup gpuFiles s)).2 ↔ fatal) ∧
  (is_Some (value (gpuutils.lookup gpuFiles s)).2 ↔ fatal) ∧
  (value (gpu.lookup gpuFiles s)).1 = (value (gpuutils.lookup gpuFiles s)).1.
Proof.
  cbv zeta. rewrite lookup_run, lookup_run_utils.
  destruct (output (st_env s) "ldconfig" ["-p"]) as [out|]; simpl.
  - destruct (elfMachine "/proc/self/exe") as [machine|]; simpl.
    + split; [|split; [|done]]; (split; [by intros [err Herr] | by intros [Hn | Hn]]).
    + split; [|split; [|done]]; (split; [by right | by eexists]).
  - split; [|split; [|done]]; (split; [by left | by eexists]).
Qed.

(** X15.  When [Paths], [GetGpuPath] and [GetRocmPath] return an error.
    The error is not nil exactly when the helper tool gave an error and the
    list file does not open, or [ldconfig -p] cannot be run, or the header of
    [/proc/self/exe] cannot be read, all in the environment the body runs in;
    and whenever it is not nil both lists are empty. *)
Theorem error_exactly_on_these_failures
    (gpuDir envPath : string) (gpu : GpuCfg) (s : state) :
  let s1 := entered envPath s in
  let fails (r : result) (cli : list string + error) (path : string) :=
    (is_Some r.2 ↔
       match cli with inr _ => openFile path = None | inl _ => False end ∨
       output (st_env s1) "ldconfig" ["-p"] = None ∨
       elfMachine "/proc/self/exe" = None) ∧
    (is_Some r.2 → r.1.1 = [] ∧ r.1.2 = []) in
  fails (value (gpu.Paths gpuDir envPath gpu s))
        (value (gpu.gpuContainerCli s1)) (Join gpuDir (File gpu)) ∧
  fails (value (gpuutils.GetGpuPath gpuDir envPath gpu s))
        (value (gpuutils.gpuContainerCli s1)) (gpuDir +:+ "/" +:+ File gpu) ∧
  fails (value (rocmutils.GetRocmPath gpuDir envPath s))
        (value (rocmutils.rocmContainerCli s1)) (gpuDir +:+ "/rocmliblist.conf").
Proof.
  cbv zeta.
  assert (value (rocmutils.GetRocmPath gpuDir envPath s) =
          value (rocmutils.GetRocmPath gpuDir "" (entered envPath s))) as Hrocm.
  { destruct (decide (envPath = "")) as [->|Hne]; [done|].
    by rewrite GetRocmPath_override. }
  split; [|split]; (split; [|apply outcome_error]).
  - destruct (Paths_wrapped gpuDir envPath gpu s) as [-> _].
    generalize (entered envPath s) as s1. intros s1. rewrite Paths_plain. cbv zeta.
    destruct (value (gpu.gpuContainerCli s1)) as [gpuFiles|err]; project.
    + destruct (lookup_error gpuFiles s1) as (-> & _). tauto.
    + destruct (openFile (Join gpuDir (File gpu))) as [text|]; project.
      * destruct (lookup_error
                    (filter (λ line, kept line) (TrimSpace <$> scanLines text)) s1)
          as (-> & _).
        split; [tauto|]. by intros [Hn | Hn].
      * split; [by left | by eexists].
  - apply Paths_outcome.
  - destruct (GetGpuPath_wrapped gpuDir envPath gpu s) as [-> _].
    generalize (entered envPath s) as s1. intros s1. rewrite GetGpuPath_plain. cbv zeta.
    destruct (value (gpuutils.gpuContainerCli s1)) as [gpuFiles|err]; project.
    + destruct (lookup_error gpuFiles s1) as (_ & -> & _). tauto.
    + destruct (openFile (gpuDir +:+ "/" +:+ File gpu)) as [text|]; project.
      * destruct (lookup_error
                    (filter (λ line, kept line) (TrimSpace <$> scanLines text)) s1)
          as (_ & -> & _).
        split; [tauto|]. by intros [Hn | Hn].
      * split; [by left | by eexists].
  - apply GetGpuPath_outcome.
  - rewrite Hrocm.
    generalize (entered envPath s) as s1. intros s1. rewrite GetRocmPath_plain. cbv zeta.
    destruct (value (rocmutils.rocmContainerCli s1)) as [gpuFiles|err]; project.
    + destruct (lookup_error gpuFiles s1) as (_ & -> & _). tauto.
    + destruct (openFile (gpuDir +:+ "/rocmliblist.conf")) as [text|]; project.
      * destruct (lookup_error
                    (filter (λ line, kept line) (TrimSpace <$> scanLines text)) s1)
          as (_ & -> & _).
        split; [tauto|]. by intros [Hn | Hn].
      * split; [by left | by eexists].
  - apply GetRocmPath_outcome.
Qed.


End Errors.

(** ** On the lab host *)

(** X4 on the lab host: the 64-bit build of [libcuda.so.1] is found for the
    candidate [libcuda.so]. *)
Lemma matching_library_is_found_lab :
  ∃ libPath',
    libPath' ∈ libraries (value (@resolve lab 62%N labCudaCache ["libcuda.so"]
                                          (labState "/usr/bin:/sbin"))) ∧
    labCudaCache !! libPath' = Some "libcuda.so.1" ∧
    @elfMachine lab libPath' = Some 62%N.
Proof.
  apply (@matching_library_is_found lab 62%N labCudaCache ["libcuda.so"]
           (labState "/usr/bin:/sbin") "libcuda.so" "/usr/lib64/libcuda.so.1"
           "libcuda.so.1"); [apply list_elem_of_here | reflexivity ..].
Defined.

(** X5 on the lab host: after [libcuda.so], the longer name [libcuda.so.1]
    changes nothing. *)
Lemma repeated_candidate_adds_nothing_lab :
  value (@resolveFile lab 62%N labCudaCache
           (value (@resolve lab 62%N labCudaCache ["libcuda.so"]
                            (labState "/usr/bin:/sbin")))
           "libcuda.so.1" (labState "/usr/bin:/sbin")) =
    value (@resolve lab 62%N labCudaCache ["libcuda.so"] (labState "/usr/bin:/sbin")).
Proof.
  apply (@repeated_candidate_adds_nothing lab 62%N labCudaCache ["libcuda.so"]
           (labState "/usr/bin:/sbin") (labState "/usr/bin:/sbin")
           "libcuda.so" "libcuda.so.1");
    [apply list_elem_of_here | right; split; reflexivity | reflexivity].
Defined.

(** X8 on the lab host, for a list of executables only. *)
Lemma candidates_of_one_kind_lab :
  Forall (λ gpuFile, isLibrary gpuFile = false) ["nvidia-smi"; "nvidia-debugdump"] ∧
  let run := @resolve lab 62%N labCudaCache ["nvidia-smi"; "nvidia-debugdump"]
                      (labState "/usr/bin:/sbin") in
  libraries (value run) = [] ∧
  calls run = [EvLookPath "nvidia-smi"; EvLookPath "nvidia-debugdump"] ∧
  final run = labState "/usr/bin:/sbin".
Proof.
  split; [by repeat constructor|].
  apply (proj1 (@candidates_of_one_kind lab 62%N labCudaCache
                  ["nvidia-smi"; "nvidia-debugdump"] (labState "/usr/bin:/sbin"))).
  by repeat constructor.
Defined.

